(** * PortfolioAnalytics2: the trade-list CLI and its PDF report

    A shallow embedding of [src/portfolio_trades/cli.py] and
    [src/portfolio_trades/report_pdf.py].

    - A pandas DataFrame is a [list] of row records, in row order.
    - Column values that are Python strings are [string]s (UTF-8 bytes,
      whose byte-wise order is Python's code-point order).
    - The dollar amounts, share counts and prices of the tables handed
      over by the engine are the exact numbers they stand for ([Q]).
    - Where the code computes in binary floating point with a rounding that
      shows, the model computes in primitive binary64 [float]s: the
      [--vol] argument and its conversion to the integer band tag, the
      totals of the two summaries and the estimated tax.  The totals are
      what the ["sum"] aggregation of pandas returns, which the model
      takes from a collaborator; the estimated tax is a binary64 product.
    - [main] runs in a small writer/error monad: the trace lists the calls
      to the I/O collaborators and the printed lines, the result is [Ok] or
      the Python exception raised.
    - The trade engine ([engine.py]) is not part of the sources at hand; it
      is modelled in [Module Engine] from the written specification. *)

From Stdlib Require Import List String Ascii Bool ZArith QArith Qabs Qminmax Qround Qpower.
From Stdlib Require Import Lia Lqa Permutation Sorted OrdersEx OrdersFacts.
From Stdlib Require Import Floats Uint63 DecimalString.
Import ListNotations.

Local Open Scope string_scope.
Local Open Scope list_scope.

(** ** Lexicographic order on tuples of strings

    [sort_values] and [groupby] compare tuples of column values; a tuple is
    the list of its components, compared component by component with the
    byte-wise order on strings. *)

Module StrFacts := OrderedTypeFacts String_as_OT.

Arguments String_as_OT.compare : simpl never.

Module KeyOrder.

Definition key := list string.

Fixpoint compare (k1 k2 : key) : comparison :=
  match k1, k2 with
  | [], [] => Eq
  | [], _ :: _ => Lt
  | _ :: _, [] => Gt
  | a :: k1', b :: k2' =>
      match String_as_OT.compare a b with
      | Eq => compare k1' k2'
      | c => c
      end
  end.

Definition leb (k1 k2 : key) : bool :=
  match compare k1 k2 with Gt => false | _ => true end.

Definition ltb (k1 k2 : key) : bool :=
  match compare k1 k2 with Lt => true | _ => false end.

Definition eqb (k1 k2 : key) : bool :=
  match compare k1 k2 with Eq => true | _ => false end.

Definition lt (k1 k2 : key) : Prop := ltb k1 k2 = true.

End KeyOrder.

(** ** The DataFrame operations the program uses *)

Module Frame.

Section Ops.

Context {A : Type}.

(** The columns named in a [by=[...]] argument, as accessors. *)
Definition columns := list (A -> string).

Definition key_of (by_ : columns) (r : A) : KeyOrder.key :=
  map (fun c => c r) by_.

(** [df.sort_values(by)]: ascending; rows with equal keys keep their
    relative order. *)
Fixpoint insert_row (by_ : columns) (r : A) (l : list A) : list A :=
  match l with
  | [] => [r]
  | x :: l' =>
      if KeyOrder.leb (key_of by_ r) (key_of by_ x) then r :: l
      else x :: insert_row by_ r l'
  end.

Definition sort_values (by_ : columns) (df : list A) : list A :=
  fold_right (insert_row by_) [] df.

(** The distinct keys of a frame in ascending order ([groupby] has
    [sort=True] by default). *)
Fixpoint insert_key (k : KeyOrder.key) (ks : list KeyOrder.key) : list KeyOrder.key :=
  match ks with
  | [] => [k]
  | k' :: ks' =>
      match KeyOrder.compare k k' with
      | Lt => k :: ks
      | Eq => ks
      | Gt => k' :: insert_key k ks'
      end
  end.

Definition group_keys (by_ : columns) (df : list A) : list KeyOrder.key :=
  fold_right (fun r ks => insert_key (key_of by_ r) ks) [] df.

(** [df.groupby(by)]: one group per distinct key, groups in ascending key
    order, each group holding its rows in the frame's order. *)
Definition groupby (by_ : columns) (df : list A) : list (KeyOrder.key * list A) :=
  map (fun k => (k, filter (fun r => KeyOrder.eqb (key_of by_ r) k) df))
      (group_keys by_ df).

(** Row [r1] may precede row [r2] in a frame sorted on the columns [by_]. *)
Definition row_le (by_ : columns) (r1 r2 : A) : Prop :=
  KeyOrder.leb (key_of by_ r1) (key_of by_ r2) = true.

(** The frame is in ascending order of the columns [by_]: every row may
    precede every later row. *)
Definition sorted_by (by_ : columns) (df : list A) : Prop :=
  StronglySorted (row_le by_) df.

(** [df.iloc[0]]: the first row, [None] standing for [IndexError]. *)
Definition iloc0 (df : list A) : option A := hd_error df.

(** [df.empty] *)
Definition empty (df : list A) : bool :=
  match df with [] => true | _ :: _ => false end.

(** The ["sum"] aggregation of a numeric column. *)
Definition sum (col : A -> Q) (df : list A) : Q :=
  fold_right (fun r acc => col r + acc) 0 df.

End Ops.

End Frame.

(** ** Python built-ins *)

Module Py.

Inductive exn :=
| ValueError
| OverflowError
| IndexError
| ConfigurationError
| DataError.

Inductive result (A : Type) :=
| Ok (a : A)
| Raise (e : exn).

Arguments Ok {A} a.
Arguments Raise {A} e.

(** [m * 2^e] rounded to the nearest integer, ties to the even one. *)
Definition round_scaled (m e : Z) : Z :=
  if (0 <=? e)%Z then (m * 2 ^ e)%Z
  else
    let d := (2 ^ (- e))%Z in
    let q := (m / d)%Z in
    let r := (m mod d)%Z in
    match (2 * r ?= d)%Z with
    | Lt => q
    | Gt => (q + 1)%Z
    | Eq => if Z.even q then q else (q + 1)%Z
    end.

(** [round(x)] for a float [x] (one argument): an [int], the nearest
    integer with ties to even; NaN raises [ValueError], an infinity
    [OverflowError]. *)
Definition round (x : float) : result Z :=
  match Prim2SF x with
  | S754_nan => Raise ValueError
  | S754_infinity _ => Raise OverflowError
  | S754_zero _ => Ok 0%Z
  | S754_finite s m e =>
      let v := round_scaled (Zpos m) e in
      Ok (if s then (- v)%Z else v)
  end.

(** [int(n)] of an [int] is [n]. *)
Definition int (n : Z) : Z := n.

(** [str(n)] of an [int]. *)
Definition str (n : Z) : string :=
  match n with
  | Z0 => "0"
  | Zpos p => NilZero.string_of_uint (Pos.to_uint p)
  | Zneg p => "-" ++ NilZero.string_of_uint (Pos.to_uint p)
  end.

Definition Qltb (x y : Q) : bool := negb (Qle_bool y x).

(** The nearest integer to a rational, ties to even: the rounding of the
    [f] presentation type. *)
Definition Qround_half_even (x : Q) : Z :=
  let f := Qfloor x in
  match ((x - inject_Z f) ?= (1 # 2))%Q with
  | Lt => f
  | Gt => (f + 1)%Z
  | Eq => if Z.even f then f else (f + 1)%Z
  end.

(** The [,] option: a comma between groups of three digits, counted from
    the right ([rev_digits] is the digit string reversed, and so is the
    result). *)
Fixpoint commas (rev_digits : list ascii) (n : nat) : list ascii :=
  match rev_digits with
  | [] => []
  | c :: rest =>
      match rest with
      | [] => [c]
      | _ :: _ =>
          if Nat.eqb n 2 then c :: ","%char :: commas rest 0
          else c :: commas rest (S n)
      end
  end.

Definition with_commas (digits : string) : string :=
  string_of_list_ascii (rev (commas (rev (list_ascii_of_string digits)) 0)).

(** [k] zeros. *)
Fixpoint zeros (k : nat) : string :=
  match k with O => "" | S k' => "0" ++ zeros k' end.

Definition zero_pad (width : nat) (s : string) : string :=
  zeros (width - String.length s) ++ s.

(** [format(x, ",.<nd>f")] for a number [x]: sign, integer part with
    thousands separators, and [nd] decimals (at least one here). *)
Definition format_comma_f (nd : nat) (x : Q) : string :=
  let scale := (10 ^ Z.of_nat nd)%Z in
  let n := Qround_half_even (Qabs x * inject_Z scale) in
  (if Qltb x 0 then "-" else "")
  ++ with_commas (str (n / scale)%Z)
  ++ "." ++ zero_pad nd (str (n mod scale)%Z).

End Py.

(** ** The tables exchanged with the engine *)

(** A row of the transaction table [tx]; the columns are those the CLI and
    the PDF renderer read. *)
Record TxRow := mkTx {
  Account : string;
  TaxStatus : string;
  Identifier : string;
  Sleeve : string;
  Action : string;
  Shares_Delta : Q;
  Price : Q;
  AverageCost : Q;
  Delta_Dollars : Q;
  CapGain_Dollars : Q
}.

(** A row of a holdings table (input [h], output [after]). *)
Record Holding := mkHolding {
  h_account : string;
  h_tax_status : string;
  h_identifier : string;
  h_sleeve : string;
  h_shares : Q;
  h_price : Q;
  h_average_cost : Q
}.

(** The target mix: sleeve and weight. *)
Definition Weights := list (string * Q).

(** The residual mapping, a [dict] iterated in insertion order. *)
Definition Residuals := list (string * Q).

(** A transaction row with the two columns [main] adds before reporting. *)
Record TxRowBS := mkTxBS {
  base : TxRow;
  Buy_ : Q;      (* column "Buy_$" *)
  Sell_ : Q      (* column "Sell_$" *)
}.

(** A row of the per-account summary [acc_sum] after [agg].  The three
    totals are what the ["sum"] aggregation returns: binary64 numbers. *)
Record AccAgg := mkAccAgg {
  acc_Account : string;
  acc_TaxStatus : string;
  acc_Total_Buys : float;
  acc_Total_Sells : float;
  acc_Net_CapGain : float
}.

(** A row of the per-status summary [by_status] after [agg]. *)
Record StatusAgg := mkStatusAgg {
  st_TaxStatus : string;
  st_Total_Buys : float;
  st_Total_Sells : float;
  st_Net_CapGain : float
}.

(** A summary row once the column [Est_Tax] has been added; the tax is a
    binary64 product, or the constant [0.0]. *)
Record WithTax (R : Type) := mkWithTax {
  summary : R;
  Est_Tax : float
}.

Arguments mkWithTax {R} summary Est_Tax.
Arguments summary {R} w.
Arguments Est_Tax {R} w.

(** The rational number a finite binary64 value stands for. *)
Definition float_value (s : bool) (m : positive) (e : Z) : Q :=
  (if s then - 1 else 1) * (inject_Z (Zpos m) * 2 ^ e).

(** ** report_pdf.py *)

Module report_pdf.

(** The calls made on the [FPDF] object, in order. *)
Inductive PdfOp :=
| FPDF (orientation unit format : string)
| set_auto_page_break (auto : bool) (margin : Z)
| add_page
| add_font (family style fname : string)
| set_font (family : string) (size : Z)
| cell (w h : Z) (txt : string) (border : Z) (ln : Z) (align : string)
| ln (h : Z)
| output (name : string).

Definition _fmt_currency (x : Q) : string :=
  let s := ("$" ++ Py.format_comma_f 2 (Qabs x))%string in
  if Py.Qltb x 0 then ("(" ++ s ++ ")")%string else s.

(** [_fmt_currency] on a binary64 summary value: a finite value is
    formatted as the exact number it stands for; [abs] clears the sign of
    a zero and of an infinity, and [x < 0] is false of a NaN and of
    [-0.0]. *)
Definition _fmt_currency_float (x : float) : string :=
  match Prim2SF x with
  | S754_nan => "$nan"
  | S754_infinity s => if s then "($inf)" else "$inf"
  | S754_zero _ => _fmt_currency 0
  | S754_finite s m e => _fmt_currency (float_value s m e)
  end.

Definition _fmt_number (x : Q) : string := Py.format_comma_f 1 x.

Definition cols : list (string * Z * string) :=
  [("Identifier", 32%Z, "L"); ("Sleeve", 24%Z, "L"); ("Action", 14%Z, "C");
   ("Shares_Delta", 20%Z, "R"); ("Price", 20%Z, "R"); ("AverageCost", 20%Z, "R");
   ("Delta_$", 24%Z, "R"); ("CapGain_$", 24%Z, "R")].

Definition right_cell (w h : Z) (t : string) (b : Z) : PdfOp :=
  cell w h t b 0 "R".

Definition header : list PdfOp :=
  set_font "Unicode" 10
  :: map (fun c => let '(h, w, a) := c in cell w 7 h 1 0 a) cols
  ++ [ln 7].

(** One table cell of a body row: right-aligned columns go through
    [right_cell]. *)
Definition body_cell (c : string * Z * string) (v : string) : PdfOp :=
  let '(_, w, a) := c in
  if a =? "R" then right_cell w 7 v 1 else cell w 7 v 1 0 a.

Definition row (r : TxRow) : list PdfOp :=
  let vals :=
    [Identifier r; Sleeve r; Action r;
     _fmt_number (Shares_Delta r); _fmt_currency (Price r);
     _fmt_currency (AverageCost r);
     _fmt_currency (Delta_Dollars r); _fmt_currency (CapGain_Dollars r)] in
  set_font "Unicode" 9
  :: map (fun cv => body_cell (fst cv) (snd cv)) (combine cols vals)
  ++ [ln 7].

Definition kv (label value : string) : list PdfOp :=
  [set_font "Unicode" 10; cell 65 6 label 0 0 "L"; right_cell 40 6 value 0; ln 6].

(** The groups the account loop iterates over:
    [tx.sort_values([...]).groupby(["Account","TaxStatus"])]. *)
Definition sections (tx : list TxRow) : list (KeyOrder.key * list TxRow) :=
  Frame.groupby [Account; TaxStatus]
    (Frame.sort_values [Account; Action; Sleeve; Identifier] tx).

(** The transaction rows in the order [row] is called on them. *)
Definition rendered_rows (tx : list TxRow) : list TxRow :=
  flat_map snd (sections tx).

(** The summary row looked up for a section:
    [acc_sum[(acc_sum["Account"]==acct) & (acc_sum["TaxStatus"]==tax)].iloc[0]]. *)
Definition lookup_summary (acc_sum : list (WithTax AccAgg)) (acct tax : string)
  : option (WithTax AccAgg) :=
  Frame.iloc0
    (filter (fun s => (acc_Account (summary s) =? acct)
                      && (acc_TaxStatus (summary s) =? tax)) acc_sum).

(** The body of the account loop for one group. *)
Definition account_section (acc_sum : list (WithTax AccAgg))
    (grp : KeyOrder.key * list TxRow) : Py.result (list PdfOp) :=
  let acct := nth 0 (fst grp) "" in
  let tax := nth 1 (fst grp) "" in
  match lookup_summary acc_sum acct tax with
  | None => Py.Raise Py.IndexError
  | Some s =>
      Py.Ok
        ([ln 2; set_font "Unicode" 11;
          cell 0 7 ("Account: " ++ acct)%string 0 1 "";
          set_font "Unicode" 10;
          cell 0 6 ("Tax Status: " ++ tax)%string 0 1 ""]
         ++ header
         ++ flat_map row (snd grp)
         ++ [ln 2]
         ++ kv "Total Buys" (_fmt_currency_float (acc_Total_Buys (summary s)))
         ++ kv "Total Sells" (_fmt_currency_float (acc_Total_Sells (summary s)))
         ++ kv "Net Realized Capital Gain"
              (_fmt_currency_float (acc_Net_CapGain (summary s)))
         ++ kv "Est Cap Gains Tax" (_fmt_currency_float (Est_Tax s))
         ++ [ln 2])
  end.

(** The account loop: stops at the first section that raises. *)
Fixpoint account_sections (acc_sum : list (WithTax AccAgg))
    (grps : list (KeyOrder.key * list TxRow)) : Py.result (list PdfOp) :=
  match grps with
  | [] => Py.Ok []
  | g :: rest =>
      match account_section acc_sum g with
      | Py.Raise e => Py.Raise e
      | Py.Ok ops =>
          match account_sections acc_sum rest with
          | Py.Raise e => Py.Raise e
          | Py.Ok ops' => Py.Ok (ops ++ ops')
          end
      end
  end.

Definition ts_cols : list (string * Z * string) :=
  [("Tax Status", 40%Z, "L"); ("Total Buys", 35%Z, "R"); ("Total Sells", 35%Z, "R");
   ("Net CapGain", 35%Z, "R"); ("Est Tax", 35%Z, "R")].

Definition status_row (r : WithTax StatusAgg) : list PdfOp :=
  let vals :=
    [st_TaxStatus (summary r); _fmt_currency_float (st_Total_Buys (summary r));
     _fmt_currency_float (st_Total_Sells (summary r));
     _fmt_currency_float (st_Net_CapGain (summary r)); _fmt_currency_float (Est_Tax r)] in
  map (fun cv => body_cell (fst cv) (snd cv)) (combine ts_cols vals) ++ [ln 7].

(** [render_pdf(tx, acc_sum, by_status, vol_pct_tag, outfile)]: the calls
    on the PDF object, or the exception that ends the rendering.
    [font_path] is what [ensure_unicode_font()] returned. *)
Definition render_pdf (font_path : string) (tx : list TxRow)
    (acc_sum : list (WithTax AccAgg)) (by_status : list (WithTax StatusAgg))
    (vol_pct_tag : Z) (outfile : string) : Py.result (list PdfOp) :=
  let title :=
    ("Transaction List - Target " ++ Py.str vol_pct_tag ++ "% Vol (Real Terms)")%string in
  match account_sections acc_sum (sections tx) with
  | Py.Raise e => Py.Raise e
  | Py.Ok body =>
      Py.Ok
        ([FPDF "P" "mm" "Letter"; set_auto_page_break true 12; add_page;
          add_font "Unicode" "" font_path; set_font "Unicode" 12;
          cell 0 8 title 0 1 ""]
         ++ body
         ++ [ln 4; set_font "Unicode" 11; cell 0 7 "Tax Status Summary" 0 1 ""]
         ++ map (fun c => let '(h, w, a) := c in cell w 7 h 1 0 a) ts_cols
         ++ [ln 7; set_font "Unicode" 9]
         ++ flat_map status_row by_status
         ++ [output outfile])
  end.

End report_pdf.

(** ** cli.py *)

Module cli.

Local Open Scope string_scope.

(** The parsed command line ([args]). *)
Record Args := mkArgs {
  vol : float;
  cash_tol : Q;
  holdings : string
}.

(** What [main] imports or asks the system for: the loaders and writers of
    [io_utils], the engine, [conventions.DEFAULT_CASH_TOL], the output
    directory, today's date, the name of the working directory, the
    font file, and the ["sum"] aggregation of pandas.  The loaders may
    raise; the engine returns its three results; the writers and the PDF
    library are taken to succeed, and are recorded in the trace.
    [agg_sum] takes the values of a column over the rows of one group, in
    the order of the table, to the binary64 number pandas returns for
    them; how pandas adds them up is left to it. *)
Record Collaborators := mkCollaborators {
  DEFAULT_CASH_TOL : Q;
  load_holdings : string -> Py.result (list Holding);
  load_targets : Z -> Py.result Weights;
  build_trades_and_afterholdings :
    list Holding -> Weights -> Q -> list TxRow * list Holding * Residuals;
  ensure_outdir : string;
  today_str : string;
  cwd_name : string;
  ensure_unicode_font : string;
  agg_sum : list Q -> float
}.

(** [parser.parse_args()]: an option that is not given takes its default. *)
Definition parse_args (env : Collaborators)
    (vol_opt : option float) (cash_tol_opt : option Q) (holdings_opt : option string)
  : Args :=
  {| vol := match vol_opt with
            | Some v => v
            | None => 0x1.47ae147ae147bp-4%float   (* the double written 0.08 *)
            end;
     cash_tol := match cash_tol_opt with Some t => t | None => DEFAULT_CASH_TOL env end;
     holdings := match holdings_opt with Some p => p | None => "data/holdings.csv" end |}.

(** What a run does to the outside world, in order. *)
Inductive Event :=
| Print (line : string)
| LoadHoldings (path : string)
| LoadTargets (vol_pct_tag : Z)
| WriteCsv (header : list string) (rows : list TxRow) (path : string)
| WriteHoldings (after : list Holding) (path : string)
| RenderPdf (ops : list report_pdf.PdfOp).

(** The trace so far and the result: a value, or the exception that ended
    the run. *)
Definition M (A : Type) : Type := list Event * Py.result A.

Definition ret {A} (a : A) : M A := ([], Py.Ok a).

Definition bind {A B} (m : M A) (k : A -> M B) : M B :=
  match m with
  | (t, Py.Raise e) => (t, Py.Raise e)
  | (t, Py.Ok a) => let '(t', r) := k a in ((t ++ t')%list, r)
  end.

Definition emit (e : Event) : M unit := ([e], Py.Ok tt).

Definition print (line : string) : M unit := emit (Print line).

(** A call that is recorded and may raise. *)
Definition call {A} (e : Event) (r : Py.result A) : M A := ([e], r).

(** A computation that leaves no trace and may raise. *)
Definition lift {A} (r : Py.result A) : M A := ([], r).

(** [for x in xs: body(x)] *)
Fixpoint for_each {A} (xs : list A) (body : A -> M unit) : M unit :=
  match xs with
  | [] => ret tt
  | x :: rest => bind (body x) (fun _ => for_each rest body)
  end.

Notation "x <- m ;; k" := (bind m (fun x => k))
  (at level 61, m at next level, right associativity).
Notation "m ;;; k" := (bind m (fun _ => k))
  (at level 61, right associativity).

(** [int(round(args.vol * 100))] *)
Definition vol_pct_tag (v : float) : Py.result Z :=
  match Py.round (v * 100)%float with
  | Py.Ok n => Py.Ok (Py.int n)
  | Py.Raise e => Py.Raise e
  end.

(** The columns of [tx] and [tx.rename(columns={...})]. *)
Definition tx_columns : list string :=
  ["Account"; "TaxStatus"; "Identifier"; "Sleeve"; "Action"; "Shares_Delta";
   "Price"; "AverageCost"; "Delta_Dollars"; "CapGain_Dollars"].

Definition rename (mapping : list (string * string)) (columns : list string)
  : list string :=
  map (fun c =>
         match find (fun p => fst p =? c) mapping with
         | Some p => snd p
         | None => c
         end) columns.

(** The line printed for one entry of [residuals]. *)
Definition warn_line (acct : string) (amt : Q) : string :=
  let sign := if Py.Qltb amt 0 then "-" else "" in
  "[WARN] Residual cash flow in '" ++ acct ++ "': " ++ sign ++ "$"
  ++ Py.format_comma_f 2 (Qabs amt).

(** [series.where(cond, other)] on one row. *)
Definition where_ (v : Q) (cond : bool) (other : Q) : Q :=
  if cond then v else other.

(** The two assignments [tx["Buy_$"] = ...] and [tx["Sell_$"] = ...]. *)
Definition add_buy_sell (tx : list TxRow) : list TxRowBS :=
  map (fun r =>
         {| base := r;
            Buy_ := where_ (Delta_Dollars r) (Action r =? "BUY") 0;
            Sell_ := where_ (- Delta_Dollars r) (Action r =? "SELL") 0 |}) tx.

(** [tx.groupby(["Account","TaxStatus"], as_index=False).agg(...)] *)
Definition acc_agg (env : Collaborators) (tx : list TxRowBS) : list AccAgg :=
  map (fun g =>
         {| acc_Account := nth 0 (fst g) "";
            acc_TaxStatus := nth 1 (fst g) "";
            acc_Total_Buys := agg_sum env (map Buy_ (snd g));
            acc_Total_Sells := agg_sum env (map Sell_ (snd g));
            acc_Net_CapGain :=
              agg_sum env (map (fun r => CapGain_Dollars (base r)) (snd g)) |})
      (Frame.groupby [fun r => Account (base r); fun r => TaxStatus (base r)] tx).

(** [tx.groupby("TaxStatus", as_index=False).agg(...)] *)
Definition status_agg (env : Collaborators) (tx : list TxRowBS) : list StatusAgg :=
  map (fun g =>
         {| st_TaxStatus := nth 0 (fst g) "";
            st_Total_Buys := agg_sum env (map Buy_ (snd g));
            st_Total_Sells := agg_sum env (map Sell_ (snd g));
            st_Net_CapGain :=
              agg_sum env (map (fun r => CapGain_Dollars (base r)) (snd g)) |})
      (Frame.groupby [fun r => TaxStatus (base r)] tx).

(** The doubles the literals [0.20] and [0.15] denote. *)
Definition rate_trust : float := 0x1.999999999999ap-3%float.
Definition rate_other : float := 0x1.3333333333333p-3%float.

(** [_est_tax(row)]; the row is read through its two columns
    ["TaxStatus"] and ["Net_CapGain"].  The two products are binary64
    multiplications. *)
Definition _est_tax {R} (tax_status : R -> string) (net_capgain : R -> float) (row : R)
  : float :=
  if existsb (String.eqb (tax_status row)) ["HSA"; "ROTH IRA"] then 0%float
  else if tax_status row =? "Trust" then (net_capgain row * rate_trust)%float
  else (net_capgain row * rate_other)%float.

(** [df["Est_Tax"] = df.apply(_est_tax, axis=1)] *)
Definition add_est_tax {R} (tax_status : R -> string) (net_capgain : R -> float)
    (df : list R) : list (WithTax R) :=
  map (fun r => mkWithTax r (_est_tax tax_status net_capgain r)) df.

Definition acc_sum (env : Collaborators) (tx : list TxRowBS) : list (WithTax AccAgg) :=
  add_est_tax acc_TaxStatus acc_Net_CapGain (acc_agg env tx).

Definition by_status (env : Collaborators) (tx : list TxRowBS)
  : list (WithTax StatusAgg) :=
  add_est_tax st_TaxStatus st_Net_CapGain (status_agg env tx).

(** The three output paths. *)
Definition csv_out (env : Collaborators) : string :=
  ensure_outdir env ++ "/" ++ cwd_name env ++ "_Trades_" ++ today_str env ++ ".csv".

Definition hold_after_out (env : Collaborators) : string :=
  ensure_outdir env ++ "/holdings_aftertrades_" ++ today_str env ++ ".csv".

Definition pdf_out (env : Collaborators) (tag : Z) : string :=
  ensure_outdir env ++ "/" ++ cwd_name env ++ "_" ++ Py.str tag ++ "vol_"
  ++ today_str env ++ ".pdf".

Definition csv_header : list string :=
  rename [("Delta_Dollars", "Delta_$"); ("CapGain_Dollars", "CapGain_$")] tx_columns.

(** The part of [main] after the engine has returned: the outputs, the
    residual warnings and the PDF.  [render_pdf] is handed the table with
    the two added columns, of which it reads the ten original ones. *)
Definition report (env : Collaborators) (tag : Z)
    (tx : list TxRow) (after : list Holding) (residuals : Residuals) : M unit :=
  emit (WriteCsv csv_header tx (csv_out env)) ;;;
  print ("CSV written: " ++ csv_out env) ;;;
  emit (WriteHoldings after (hold_after_out env)) ;;;
  print ("Holdings-after written: " ++ hold_after_out env) ;;;
  for_each residuals (fun '(acct, amt) => print (warn_line acct amt)) ;;;
  if negb (Frame.empty tx) then
    let txbs := add_buy_sell tx in
    ops <- lift (report_pdf.render_pdf (ensure_unicode_font env) tx
                   (acc_sum env txbs) (by_status env txbs) tag (pdf_out env tag)) ;;
    emit (RenderPdf ops) ;;;
    print ("PDF written: " ++ pdf_out env tag)
  else
    print "No trades; PDF skipped.".

Definition main (env : Collaborators) (args : Args) : M unit :=
  tag <- lift (vol_pct_tag (vol args)) ;;
  print ("Target volatility: " ++ Py.str tag ++ "%") ;;;
  h <- call (LoadHoldings (holdings args)) (load_holdings env (holdings args)) ;;
  W <- call (LoadTargets tag) (load_targets env tag) ;;
  let '(tx, after, residuals) :=
    build_trades_and_afterholdings env h W (cash_tol args) in
  report env tag tx after residuals.

End cli.

(** ** The trade engine

    [engine.build_trades_and_afterholdings] is imported by [cli.py] but its
    source is not at hand.  The definitions of this module follow the
    written specification of the engine (Allocator, Trade Synthesizer, Cash
    Reconciler, Holdings Projector). *)

Module Engine.

(** Modelled from the spec: the engine's configuration knobs, which
    [engine.py] would define (minimum-trade threshold, lot granularity,
    policy for positions reduced to zero shares), the cash balance of each
    account, and the identifier and price bought for a sleeve the account
    does not hold yet. *)
Record Config := mkConfig {
  min_trade : Q;
  lot : Q;
  drop_zero : bool;
  cash : string -> Q;
  catalogue : string -> string * Q
}.

(** Modelled from the spec: the rounding of the missing Trade Synthesizer,
    nearest integer with halves away from zero. *)
Definition round_half_away (x : Q) : Z :=
  if Qle_bool 0 x then Qfloor (x + (1 # 2))
  else (- Qfloor (- x + (1 # 2)))%Z.

(** Modelled from the spec: rounding to the nearest tradeable unit in the
    missing Trade Synthesizer. *)
Definition round_lot (cfg : Config) (x : Q) : Q :=
  inject_Z (round_half_away (x / lot cfg)) * lot cfg.

(** Modelled from the spec: the holdings of one account, as the missing
    Per-Account Allocator selects them. *)
Definition account_rows (a : string) (hs : list Holding) : list Holding :=
  filter (fun h => h_account h =? a) hs.

(** Modelled from the spec: the holdings of one sleeve in one account. *)
Definition sleeve_rows (a s : string) (hs : list Holding) : list Holding :=
  filter (fun h => (h_account h =? a) && (h_sleeve h =? s)) hs.

(** Modelled from the spec: market value, the sum of shares x price. *)
Definition market_value (hs : list Holding) : Q :=
  Frame.sum (fun h => h_shares h * h_price h) hs.

(** Modelled from the spec: step 1 of the missing Per-Account Allocator,
    equity = sum of shares x price, plus cash. *)
Definition equity (cfg : Config) (a : string) (hs : list Holding) : Q :=
  market_value (account_rows a hs) + cash cfg a.

(** Modelled from the spec: the weight of a sleeve in the target mix, 0
    for a sleeve the mix does not name. *)
Definition weight (W : Weights) (s : string) : Q :=
  match find (fun p => fst p =? s) W with
  | Some p => snd p
  | None => 0
  end.

(** Modelled from the spec: steps 2 to 4 of the missing Per-Account
    Allocator; a sleeve that is held but has no target weight gets target 0. *)
Definition delta_dollars (cfg : Config) (a s : string) (hs : list Holding) (W : Weights) : Q :=
  equity cfg a hs * weight W s - market_value (sleeve_rows a s hs).

(** Modelled from the spec: the accounts of the run, each processed on
    its own. *)
Definition accounts (hs : list Holding) : list string :=
  nodup string_dec (map h_account hs).

(** Modelled from the spec: the sleeves the missing Allocator visits for
    an account, those of the weight vector and those the account holds. *)
Definition sleeves (a : string) (hs : list Holding) (W : Weights) : list string :=
  nodup string_dec (map fst W ++ map h_sleeve (account_rows a hs)).

(** Modelled from the spec: the tax status of an account, read off its
    first holding. *)
Definition tax_status_of (a : string) (hs : list Holding) : string :=
  match account_rows a hs with
  | h :: _ => h_tax_status h
  | [] => ""
  end.

(** Modelled from the spec: the position the missing Trade Synthesizer
    trades for an (account, sleeve) pair: the first holding of the sleeve in
    the account, whose price is the representative price, or an empty
    position in the catalogue's identifier when the account holds nothing
    in the sleeve. *)
Definition position (cfg : Config) (a s : string) (hs : list Holding) : Holding :=
  match sleeve_rows a s hs with
  | h :: _ => h
  | [] =>
      {| h_account := a; h_tax_status := tax_status_of a hs;
         h_identifier := fst (catalogue cfg s); h_sleeve := s;
         h_shares := 0; h_price := snd (catalogue cfg s); h_average_cost := 0 |}
  end.

(** Modelled from the spec: round(|delta_dollars| / price) of the missing
    Trade Synthesizer, before any clamp. *)
Definition requested_shares (cfg : Config) (p : Holding) (d : Q) : Q :=
  round_lot cfg (Qabs d / h_price p).

(** Modelled from the spec: the missing Trade Synthesizer for one
    (account, sleeve) delta: nothing below the minimum-trade threshold;
    BUY if the delta is positive, else SELL; a SELL is clamped to the
    shares held; the capital gain of a SELL is (price - average cost) x
    shares, that of a BUY is 0. *)
Definition synthesize (cfg : Config) (p : Holding) (d : Q) : option TxRow :=
  if Py.Qltb (Qabs d) (min_trade cfg) then None
  else
    let buy := Py.Qltb 0 d in
    let req := requested_shares cfg p d in
    let sd := if buy then req else Qmin req (h_shares p) in
    Some {| Account := h_account p; TaxStatus := h_tax_status p;
            Identifier := h_identifier p; Sleeve := h_sleeve p;
            Action := if buy then "BUY" else "SELL";
            Shares_Delta := sd; Price := h_price p;
            AverageCost := h_average_cost p;
            Delta_Dollars := d;
            CapGain_Dollars :=
              if buy then 0 else (h_price p - h_average_cost p) * sd |}.


(** Nothing, or the one transaction of a request. *)
Definition opt_list {A} (o : option A) : list A :=
  match o with Some a => [a] | None => [] end.

(** Modelled from the spec: the transactions of one account, one request
    per sleeve; [synth] is the synthesizer used. *)
Definition account_trades (synth : Config -> Holding -> Q -> option TxRow)
    (cfg : Config) (a : string) (hs : list Holding) (W : Weights) : list TxRow :=
  flat_map (fun s => opt_list (synth cfg (position cfg a s hs) (delta_dollars cfg a s hs W)))
           (sleeves a hs W).

(** Modelled from the spec: the transactions of all accounts, account by
    account. *)
Definition all_trades (synth : Config -> Holding -> Q -> option TxRow)
    (cfg : Config) (hs : list Holding) (W : Weights) : list TxRow :=
  flat_map (fun a => account_trades synth cfg a hs W) (accounts hs).

(** Modelled from the spec: the output of the missing Trade Synthesizer,
    sorted by (Account, Action, Sleeve, Identifier). *)
Definition trades (cfg : Config) (hs : list Holding) (W : Weights) : list TxRow :=
  Frame.sort_values [Account; Action; Sleeve; Identifier]
    (all_trades synthesize cfg hs W).

(** Modelled from the spec: the cash a transaction brings in (SELL) or
    takes (BUY), as the missing Cash Reconciler sums it. *)
Definition cash_flow (t : TxRow) : Q :=
  if Action t =? "SELL" then Price t * Shares_Delta t
  else if Action t =? "BUY" then - (Price t * Shares_Delta t)
  else 0.

(** Modelled from the spec: net_cash_flow(account) of the missing Cash
    Reconciler. *)
Definition net_cash_flow (a : string) (tx : list TxRow) : Q :=
  Frame.sum cash_flow (filter (fun t => Account t =? a) tx).

(** Modelled from the spec: the missing Cash Reconciler; a net cash flow
    within the tolerance is accepted silently, any other is a named
    residual of its account. *)
Definition reconcile (hs : list Holding) (tx : list TxRow) (cash_tolerance : Q) : Residuals :=
  flat_map (fun a =>
              let n := net_cash_flow a tx in
              if Qle_bool (Qabs n) cash_tolerance then [] else [(a, n)])
           (accounts hs).

(** The residual cash of an account: its entry in the mapping, 0 when it
    has none. *)
Definition residual_cash (a : string) (residuals : Residuals) : Q :=
  match find (fun p => fst p =? a) residuals with
  | Some p => snd p
  | None => 0
  end.

(** Modelled from the spec: the holding a transaction of the missing
    Holdings Projector applies to, by account, sleeve and identifier. *)
Definition matches (t : TxRow) (h : Holding) : bool :=
  (h_account h =? Account t) && (h_sleeve h =? Sleeve t)
  && (h_identifier h =? Identifier t).

(** The shares of the position a transaction applies to, before the
    trade: the pre-trade shares held for its identifier in its account. *)
Definition held (t : TxRow) (hs : list Holding) : Q :=
  match find (matches t) hs with
  | Some h => h_shares h
  | None => 0
  end.



(** Modelled from the spec: a BUY in the missing Holdings Projector, more
    shares at the weighted-average cost. *)
Definition buy_into (h : Holding) (t : TxRow) : Holding :=
  let n := h_shares h + Shares_Delta t in
  {| h_account := h_account h; h_tax_status := h_tax_status h;
     h_identifier := h_identifier h; h_sleeve := h_sleeve h;
     h_shares := n; h_price := h_price h;
     h_average_cost :=
       (h_shares h * h_average_cost h + Shares_Delta t * Price t) / n |}.

(** Modelled from the spec: a SELL in the missing Holdings Projector, fewer
    shares at the same average cost; a position reduced to zero shares is
    dropped when the policy says so. *)
Definition sell_from (cfg : Config) (h : Holding) (t : TxRow) : list Holding :=
  let n := h_shares h - Shares_Delta t in
  if drop_zero cfg && Qeq_bool n 0 then []
  else [{| h_account := h_account h; h_tax_status := h_tax_status h;
           h_identifier := h_identifier h; h_sleeve := h_sleeve h;
           h_shares := n; h_price := h_price h;
           h_average_cost := h_average_cost h |}].

(** Modelled from the spec: the empty position a first BUY of an
    identifier starts from in the missing Holdings Projector. *)
Definition empty_position (t : TxRow) : Holding :=
  {| h_account := Account t; h_tax_status := TaxStatus t;
     h_identifier := Identifier t; h_sleeve := Sleeve t;
     h_shares := 0; h_price := Price t; h_average_cost := 0 |}.

(** Modelled from the spec: the missing Holdings Projector for one
    transaction, applied to the position it was synthesized for. *)
Fixpoint apply_tx (cfg : Config) (t : TxRow) (hs : list Holding) : list Holding :=
  match hs with
  | [] => if Action t =? "BUY" then [buy_into (empty_position t) t] else []
  | h :: rest =>
      if matches t h then
        (if Action t =? "BUY" then [buy_into h t] else sell_from cfg h t) ++ rest
      else h :: apply_tx cfg t rest
  end.

Definition project (cfg : Config) (tx : list TxRow) (hs : list Holding) : list Holding :=
  fold_left (fun acc t => apply_tx cfg t acc) tx hs.

(** Modelled from the spec: [build_trades_and_afterholdings(h, W,
    cash_tolerance)] of the missing [engine.py], returning the
    transactions, the holdings after them and the residual mapping. *)
Definition build_trades_and_afterholdings (cfg : Config)
    (hs : list Holding) (W : Weights) (cash_tolerance : Q)
  : list TxRow * list Holding * Residuals :=
  let tx := trades cfg hs W in
  (tx, project cfg tx hs, reconcile hs tx cash_tolerance).

(** Modelled from the spec: the defaults of the missing configuration: a
    dust threshold of one cent, whole shares, positions
    reduced to zero are dropped, no cash outside the holdings. *)
Definition default_config (catalogue : string -> string * Q) : Config :=
  {| min_trade := 1 # 100; lot := 1; drop_zero := true;
     cash := fun _ => 0; catalogue := catalogue |}.

End Engine.

(** ** Notions used to state the properties *)

(** The sort keys of the report. *)
Definition by_account_status : @Frame.columns TxRow := [Account; TaxStatus].
Definition by_account_action : @Frame.columns TxRow := [Account; Action; Sleeve; Identifier].
Definition by_section_then_action : @Frame.columns TxRow :=
  [Account; TaxStatus; Action; Sleeve; Identifier].

Definition by_account_status_bs : @Frame.columns TxRowBS :=
  [fun r => Account (base r); fun r => TaxStatus (base r)].

(** Every account of the table carries one tax status. *)
Definition single_status (tx : list TxRow) : bool :=
  forallb (fun r1 =>
             forallb (fun r2 =>
                        implb (Account r1 =? Account r2) (TaxStatus r1 =? TaxStatus r2))
                     tx) tx.

(** The events of a run of [main], by stage. *)
Definition preamble (args : cli.Args) (tag : Z) : list cli.Event :=
  [cli.Print ("Target volatility: " ++ Py.str tag ++ "%");
   cli.LoadHoldings (cli.holdings args);
   cli.LoadTargets tag].

(** The events of the PDF step of [report]. *)
Definition pdf_step (env : cli.Collaborators) (tag : Z) (tx : list TxRow) : cli.M unit :=
  if negb (Frame.empty tx) then
    match report_pdf.render_pdf (cli.ensure_unicode_font env) tx
            (cli.acc_sum env (cli.add_buy_sell tx))
            (cli.by_status env (cli.add_buy_sell tx))
            tag (cli.pdf_out env tag) with
    | Py.Ok ops =>
        ([cli.RenderPdf ops; cli.Print ("PDF written: " ++ cli.pdf_out env tag)], Py.Ok tt)
    | Py.Raise e => ([], Py.Raise e)
    end
  else ([cli.Print "No trades; PDF skipped."], Py.Ok tt).

Definition warnings (residuals : Residuals) : list cli.Event :=
  map (fun p => cli.Print (cli.warn_line (fst p) (snd p))) residuals.

Definition outputs (env : cli.Collaborators) (tx : list TxRow) (after : list Holding)
  : list cli.Event :=
  [cli.WriteCsv cli.csv_header tx (cli.csv_out env);
   cli.Print ("CSV written: " ++ cli.csv_out env);
   cli.WriteHoldings after (cli.hold_after_out env);
   cli.Print ("Holdings-after written: " ++ cli.hold_after_out env)].

(** The market value of the holdings of one account. *)
Definition account_value (a : string) (hs : list Holding) : Q :=
  Engine.market_value (Engine.account_rows a hs).

Definition tx_key (t : TxRow) : string * string := (Account t, Sleeve t).

(** What the Projector needs of a transaction: it is a BUY or a SELL at
    the price of the position it applies to, and only a BUY (or a SELL of
    no share) comes without a position. *)
Definition tx_ok (hs : list Holding) (t : TxRow) : Prop :=
  (Action t = "BUY" \/ Action t = "SELL")
  /\ match find (Engine.matches t) hs with
     | Some h => h_price h = Price t
     | None => Action t = "BUY" \/ Shares_Delta t == 0
     end.

(** ** Sample runs *)

Module Examples.

(** The worked example of the specification: one account holding 100 VTI
    at $200 (average cost $150), target 60% US Equity and 40% Bonds, the
    bond fund bought at $100. *)
Definition catalogue (s : string) : string * Q :=
  if s =? "Bonds" then ("BND", 100) else ("VTI", 200).

Definition config : Engine.Config := Engine.default_config catalogue.

Definition holdings : list Holding :=
  [mkHolding "IRA1" "ROTH IRA" "VTI" "US Equity" 100 200 150].

Definition weights : Weights := [("US Equity", 6 # 10); ("Bonds", 4 # 10)].

(** A ["sum"] for the sample runs: each value is the binary64 quotient of
    its numerator and its denominator, and the values are added from left
    to right, starting from [0.0]. *)
Definition to_float (q : Q) : float :=
  let n := of_uint63 (Uint63.of_Z (Z.abs (Qnum q))) in
  let d := of_uint63 (Uint63.of_Z (Zpos (Qden q))) in
  ((if (Qnum q <? 0)%Z then - n else n) / d)%float.

Definition agg_sum (values : list Q) : float :=
  fold_left (fun acc v => (acc + to_float v)%float) values 0%float.

Definition env : cli.Collaborators :=
  {| cli.DEFAULT_CASH_TOL := 5;
     cli.load_holdings := fun _ => Py.Ok holdings;
     cli.load_targets := fun _ => Py.Ok weights;
     cli.build_trades_and_afterholdings := Engine.build_trades_and_afterholdings config;
     cli.ensure_outdir := "output";
     cli.today_str := "2024-01-31";
     cli.cwd_name := "PortfolioAnalytics2";
     cli.ensure_unicode_font := "DejaVuSans.ttf";
     cli.agg_sum := agg_sum |}.

Definition args : cli.Args := cli.parse_args env None None None.

(** The two transactions of the example; the deltas -8000 and 8000 are
    written as the exact arithmetic leaves them, unreduced. *)
Definition sell_vti : TxRow :=
  mkTx "IRA1" "ROTH IRA" "VTI" "US Equity" "SELL" 40 200 150 (-80000 # 10) 2000.

Definition buy_bnd : TxRow :=
  mkTx "IRA1" "ROTH IRA" "BND" "Bonds" "BUY" 80 100 0 (80000 # 10) 0.

(** A portfolio that is already on target: nothing to trade. *)
Definition weights_on_target : Weights := [("US Equity", 1)].

Definition env_on_target : cli.Collaborators :=
  {| cli.DEFAULT_CASH_TOL := 5;
     cli.load_holdings := fun _ => Py.Ok holdings;
     cli.load_targets := fun _ => Py.Ok weights_on_target;
     cli.build_trades_and_afterholdings := Engine.build_trades_and_afterholdings config;
     cli.ensure_outdir := "output";
     cli.today_str := "2024-01-31";
     cli.cwd_name := "PortfolioAnalytics2";
     cli.ensure_unicode_font := "DejaVuSans.ttf";
     cli.agg_sum := agg_sum |}.

(** An engine result with a residual, as a zero tolerance would report it:
    the account buys $70 more than it sells. *)
Definition env_with_residual : cli.Collaborators :=
  {| cli.DEFAULT_CASH_TOL := 0;
     cli.load_holdings := fun _ => Py.Ok holdings;
     cli.load_targets := fun _ => Py.Ok weights;
     cli.build_trades_and_afterholdings :=
       fun _ _ _ =>
         ([mkTx "IRA1" "ROTH IRA" "BND" "Bonds" "BUY" 80 (807 # 8) 0 8000 0; sell_vti],
          [mkHolding "IRA1" "ROTH IRA" "VTI" "US Equity" 60 200 150;
           mkHolding "IRA1" "ROTH IRA" "BND" "Bonds" 80 (807 # 8) (807 # 8)],
          [("IRA1", -70)]);
     cli.ensure_outdir := "output";
     cli.today_str := "2024-01-31";
     cli.cwd_name := "PortfolioAnalytics2";
     cli.ensure_unicode_font := "DejaVuSans.ttf";
     cli.agg_sum := agg_sum |}.

(** A forced liquidation that the chosen position cannot cover: the
    account holds two funds of a sleeve that has no target weight. *)
Definition holdings_two_funds : list Holding :=
  [mkHolding "Taxable" "Trust" "AAA" "Legacy" 10 10 8;
   mkHolding "Taxable" "Trust" "BBB" "Legacy" 10 10 9].

Definition weights_bonds_only : Weights := [("Bonds", 1)].




(** A sale under a tax status spelled in mixed case. *)
Definition roth_sell : TxRow :=
  mkTx "IRA2" "Roth IRA" "VTI" "US Equity" "SELL" 20 200 150 (-4000) 1000.

(** One account name under two tax statuses. *)
Definition joint_sell : TxRow :=
  mkTx "Joint" "ROTH IRA" "VTI" "US Equity" "SELL" 10 200 150 (-2000) 500.

Definition joint_buy : TxRow :=
  mkTx "Joint" "Trust" "BND" "Bonds" "BUY" 20 100 0 2000 0.

Definition two_status_tx : list TxRow := [joint_buy; joint_sell].

End Examples.

(** ** Further notions *)

(** The row of the per-account summary for one (Account, TaxStatus) key,
    as [main] computes it from the table. *)
Definition account_summary_row (env : cli.Collaborators) (tx : list TxRow)
    (k : KeyOrder.key) : WithTax AccAgg :=
  let rows :=
    filter (fun r => KeyOrder.eqb (Frame.key_of by_account_status_bs r) k)
           (cli.add_buy_sell tx) in
  let agg :=
    {| acc_Account := nth 0 k "";
       acc_TaxStatus := nth 1 k "";
       acc_Total_Buys := cli.agg_sum env (map Buy_ rows);
       acc_Total_Sells := cli.agg_sum env (map Sell_ rows);
       acc_Net_CapGain :=
         cli.agg_sum env (map (fun r => CapGain_Dollars (base r)) rows) |} in
  mkWithTax agg (cli._est_tax acc_TaxStatus acc_Net_CapGain agg).

(** The filter [render_pdf] applies to [acc_sum] for a section. *)
Definition summary_matches (acct tax : string) (s : WithTax AccAgg) : bool :=
  (acc_Account (summary s) =? acct) && (acc_TaxStatus (summary s) =? tax).

(** Some row of [acc_sum] is for the account and tax status of [r]. *)
Definition has_summary (acc_sum : list (WithTax AccAgg)) (r : TxRow) : bool :=
  existsb (summary_matches (Account r) (TaxStatus r)) acc_sum.

Definition by_status_bs : @Frame.columns TxRowBS := [fun r => TaxStatus (base r)].

(** The events that write a file. *)
Definition writes (ev : cli.Event) : bool :=
  match ev with
  | cli.WriteCsv _ _ _ | cli.WriteHoldings _ _ | cli.RenderPdf _ => true
  | _ => false
  end.

(** * Properties *)

(** ** The order on keys *)

Lemma str_compare_refl a : String_as_OT.compare a a = Eq.
Proof. apply StrFacts.compare_refl. Qed.

Lemma str_compare_eq a b : String_as_OT.compare a b = Eq -> a = b.
Proof. apply StrFacts.compare_eq_iff. Qed.

Lemma str_compare_antisym a b :
  String_as_OT.compare b a = CompOpp (String_as_OT.compare a b).
Proof. apply StrFacts.compare_antisym. Qed.

Lemma str_compare_lt_trans a b c :
  String_as_OT.compare a b = Lt -> String_as_OT.compare b c = Lt ->
  String_as_OT.compare a c = Lt.
Proof.
  intros H1 H2. apply StrFacts.compare_lt_iff.
  apply StrFacts.compare_lt_iff in H1. apply StrFacts.compare_lt_iff in H2.
  eapply StrFacts.lt_trans; eassumption.
Qed.

Lemma key_compare_refl k : KeyOrder.compare k k = Eq.
Proof.
  induction k as [|a k IH]; simpl; [reflexivity|].
  now rewrite str_compare_refl.
Qed.

Lemma key_compare_eq k1 k2 : KeyOrder.compare k1 k2 = Eq -> k1 = k2.
Proof.
  revert k2; induction k1 as [|a k1 IH]; intros [|b k2]; simpl; try discriminate; auto.
  destruct (String_as_OT.compare a b) eqn:E; try discriminate.
  apply str_compare_eq in E. intros H. f_equal; auto.
Qed.

Lemma key_compare_antisym k1 k2 : KeyOrder.compare k2 k1 = CompOpp (KeyOrder.compare k1 k2).
Proof.
  revert k2; induction k1 as [|a k1 IH]; intros [|b k2]; simpl; auto.
  rewrite (str_compare_antisym a b). destruct (String_as_OT.compare a b); simpl; auto.
Qed.

Lemma key_compare_lt_trans k1 k2 k3 :
  KeyOrder.compare k1 k2 = Lt -> KeyOrder.compare k2 k3 = Lt -> KeyOrder.compare k1 k3 = Lt.
Proof.
  revert k2 k3; induction k1 as [|a k1 IH]; intros [|b k2] [|c k3]; simpl;
    try discriminate; auto.
  destruct (String_as_OT.compare a b) eqn:Eab; try discriminate;
    destruct (String_as_OT.compare b c) eqn:Ebc; try discriminate; intros H1 H2.
  - apply str_compare_eq in Eab. apply str_compare_eq in Ebc. subst.
    rewrite str_compare_refl. eauto.
  - apply str_compare_eq in Eab. subst. now rewrite Ebc.
  - apply str_compare_eq in Ebc. subst. now rewrite Eab.
  - now rewrite (str_compare_lt_trans _ _ _ Eab Ebc).
Qed.

Lemma key_leb_refl k : KeyOrder.leb k k = true.
Proof. unfold KeyOrder.leb. now rewrite key_compare_refl. Qed.

Lemma key_leb_total k1 k2 : KeyOrder.leb k1 k2 = true \/ KeyOrder.leb k2 k1 = true.
Proof.
  unfold KeyOrder.leb. rewrite (key_compare_antisym k1 k2).
  destruct (KeyOrder.compare k1 k2); simpl; auto.
Qed.

Lemma key_leb_false_ltb k1 k2 : KeyOrder.leb k1 k2 = false -> KeyOrder.ltb k2 k1 = true.
Proof.
  unfold KeyOrder.leb, KeyOrder.ltb. rewrite (key_compare_antisym k1 k2).
  destruct (KeyOrder.compare k1 k2); simpl; auto; discriminate.
Qed.

Lemma key_ltb_leb k1 k2 : KeyOrder.ltb k1 k2 = true -> KeyOrder.leb k1 k2 = true.
Proof. unfold KeyOrder.leb, KeyOrder.ltb. destruct (KeyOrder.compare k1 k2); auto. Qed.

Lemma key_ltb_irrefl k : KeyOrder.ltb k k = false.
Proof. unfold KeyOrder.ltb. now rewrite key_compare_refl. Qed.

Lemma key_leb_trans k1 k2 k3 : KeyOrder.leb k1 k2 = true -> KeyOrder.leb k2 k3 = true -> KeyOrder.leb k1 k3 = true.
Proof.
  unfold KeyOrder.leb.
  destruct (KeyOrder.compare k1 k2) eqn:E12; try discriminate;
    destruct (KeyOrder.compare k2 k3) eqn:E23; try discriminate; intros _ _.
  - apply key_compare_eq in E12, E23. subst. now rewrite key_compare_refl.
  - apply key_compare_eq in E12. subst. now rewrite E23.
  - apply key_compare_eq in E23. subst. now rewrite E12.
  - now rewrite (key_compare_lt_trans _ _ _ E12 E23).
Qed.

Lemma key_leb_antisym k1 k2 : KeyOrder.leb k1 k2 = true -> KeyOrder.leb k2 k1 = true -> k1 = k2.
Proof.
  unfold KeyOrder.leb. rewrite (key_compare_antisym k1 k2).
  destruct (KeyOrder.compare k1 k2) eqn:E; simpl; try discriminate; intros _ _.
  now apply key_compare_eq.
Qed.

Lemma key_eqb_eq k1 k2 : KeyOrder.eqb k1 k2 = true <-> k1 = k2.
Proof.
  unfold KeyOrder.eqb. split.
  - destruct (KeyOrder.compare k1 k2) eqn:E; try discriminate. intros _. now apply key_compare_eq.
  - intros ->. now rewrite key_compare_refl.
Qed.

Lemma key_ltb_app_prefix (p1 p2 s1 s2 : KeyOrder.key) :
  List.length p1 = List.length p2 -> KeyOrder.ltb p1 p2 = true -> KeyOrder.ltb (p1 ++ s1) (p2 ++ s2) = true.
Proof.
  unfold KeyOrder.ltb. revert p2; induction p1 as [|a p1 IH]; intros [|b p2]; simpl;
    try discriminate.
  intros L. injection L as L.
  destruct (String_as_OT.compare a b); auto.
Qed.


(** ** sort_values and groupby *)

Section FrameFacts.

Context {A : Type}.
Variable by_ : @Frame.columns A.

Lemma insert_row_perm (r : A) (l : list A) :
  Permutation (Frame.insert_row by_ r l) (r :: l).
Proof.
  induction l as [|x l IH]; simpl; [reflexivity|].
  destruct (KeyOrder.leb _ _); [reflexivity|].
  rewrite IH. apply perm_swap.
Qed.

Lemma sort_values_perm (df : list A) : Permutation (Frame.sort_values by_ df) df.
Proof.
  induction df as [|r df IH]; simpl; [constructor|].
  rewrite insert_row_perm. now constructor.
Qed.

Lemma sort_values_In (df : list A) (r : A) :
  In r (Frame.sort_values by_ df) <-> In r df.
Proof.
  split; apply Permutation_in;
    [apply sort_values_perm | apply Permutation_sym, sort_values_perm].
Qed.

Lemma row_le_trans (r1 r2 r3 : A) :
  Frame.row_le by_ r1 r2 -> Frame.row_le by_ r2 r3 -> Frame.row_le by_ r1 r3.
Proof. unfold Frame.row_le. apply key_leb_trans. Qed.

Lemma insert_row_sorted (r : A) (l : list A) :
  Frame.sorted_by by_ l -> Frame.sorted_by by_ (Frame.insert_row by_ r l).
Proof.
  unfold Frame.sorted_by.
  induction l as [|x l IH]; simpl; intros S.
  - repeat constructor.
  - destruct (KeyOrder.leb (Frame.key_of by_ r) (Frame.key_of by_ x)) eqn:E.
    + constructor; [assumption|].
      inversion S as [|? ? S' F]; subst.
      constructor; [exact E|].
      eapply Forall_impl; [|exact F]. intros y Hy.
      eapply row_le_trans; [exact E|exact Hy].
    + inversion S as [|? ? S' F]; subst.
      constructor; [now apply IH|].
      assert (Hx : Frame.row_le by_ x r).
      { apply key_ltb_leb. now apply key_leb_false_ltb. }
      rewrite Forall_forall in *. intros y Hy.
      apply (Permutation_in _ (insert_row_perm r l)) in Hy.
      destruct Hy as [<-|Hy]; auto.
  Qed.

Lemma sort_values_sorted (df : list A) : Frame.sorted_by by_ (Frame.sort_values by_ df).
Proof.
  induction df as [|r df IH]; simpl; [constructor|].
  now apply insert_row_sorted.
Qed.

(** [sort_values] is stable: the rows of one key keep the order they had. *)
Lemma insert_row_filter_key (k : KeyOrder.key) (r : A) (l : list A) :
  filter (fun x => KeyOrder.eqb (Frame.key_of by_ x) k) (Frame.insert_row by_ r l)
  = filter (fun x => KeyOrder.eqb (Frame.key_of by_ x) k) (r :: l).
Proof.
  induction l as [|x l IH]; simpl; [reflexivity|].
  destruct (KeyOrder.leb (Frame.key_of by_ r) (Frame.key_of by_ x)) eqn:L;
    [reflexivity|].
  simpl. rewrite IH. simpl.
  destruct (KeyOrder.eqb (Frame.key_of by_ x) k) eqn:Ex;
    destruct (KeyOrder.eqb (Frame.key_of by_ r) k) eqn:Er; try reflexivity.
  apply key_eqb_eq in Ex, Er. rewrite Ex, Er, key_leb_refl in L. discriminate.
Qed.

Lemma sort_values_stable (k : KeyOrder.key) (df : list A) :
  filter (fun x => KeyOrder.eqb (Frame.key_of by_ x) k) (Frame.sort_values by_ df)
  = filter (fun x => KeyOrder.eqb (Frame.key_of by_ x) k) df.
Proof.
  induction df as [|r df IH]; simpl; [reflexivity|].
  rewrite insert_row_filter_key. simpl. now rewrite IH.
Qed.

Lemma sorted_by_filter (f : A -> bool) (R : A -> A -> Prop) (l : list A) :
  StronglySorted R l -> StronglySorted R (filter f l).
Proof.
  induction 1 as [|x l S IH F]; simpl; [constructor|].
  destruct (f x); [|assumption].
  constructor; [assumption|].
  rewrite Forall_forall in *. intros y Hy. apply filter_In in Hy. now apply F.
Qed.

Lemma insert_key_In (k k' : KeyOrder.key) (ks : list KeyOrder.key) :
  In k' (Frame.insert_key k ks) <-> k' = k \/ In k' ks.
Proof.
  induction ks as [|x ks IH]; simpl.
  - intuition.
  - destruct (KeyOrder.compare k x) eqn:E; simpl.
    + apply key_compare_eq in E. subst. intuition.
    + intuition.
    + rewrite IH. intuition.
Qed.

Lemma group_keys_In (df : list A) (k : KeyOrder.key) :
  In k (Frame.group_keys by_ df) <-> exists r, In r df /\ Frame.key_of by_ r = k.
Proof.
  induction df as [|x df IH]; simpl.
  - split; [tauto | intros (r & [] & _)].
  - rewrite insert_key_In, IH. split.
    + intros [->|(r & Hr & E)]; eauto.
    + intros (r & [<-|Hr] & E); eauto.
Qed.

Lemma insert_key_sorted (k : KeyOrder.key) (ks : list KeyOrder.key) :
  StronglySorted KeyOrder.lt ks -> StronglySorted KeyOrder.lt (Frame.insert_key k ks).
Proof.
  induction 1 as [|x ks S IH F]; simpl.
  - repeat constructor.
  - destruct (KeyOrder.compare k x) eqn:E.
    + now constructor.
    + constructor; [now constructor|].
      constructor; [unfold KeyOrder.lt, KeyOrder.ltb; now rewrite E|].
      eapply Forall_impl; [|exact F]. intros y Hy.
      unfold KeyOrder.lt, KeyOrder.ltb in *.
      destruct (KeyOrder.compare x y) eqn:Exy; try discriminate.
      now rewrite (key_compare_lt_trans _ _ _ E Exy).
    + constructor; [assumption|].
      rewrite Forall_forall in *. intros y Hy.
      apply insert_key_In in Hy. destruct Hy as [->|Hy]; auto.
      unfold KeyOrder.lt, KeyOrder.ltb.
      rewrite (key_compare_antisym k x), E. reflexivity.
Qed.

Lemma group_keys_sorted (df : list A) :
  StronglySorted KeyOrder.lt (Frame.group_keys by_ df).
Proof.
  induction df as [|x df IH]; simpl; [constructor|].
  now apply insert_key_sorted.
Qed.

(** Every group of [groupby] has a key of the frame, and holds exactly the
    rows with that key. *)
Lemma groupby_In (df : list A) (g : KeyOrder.key * list A) :
  In g (Frame.groupby by_ df) ->
  (exists r, In r df /\ Frame.key_of by_ r = fst g)
  /\ snd g = filter (fun r => KeyOrder.eqb (Frame.key_of by_ r) (fst g)) df.
Proof.
  unfold Frame.groupby. rewrite in_map_iff. intros (k & <- & Hk). simpl.
  split; [now apply group_keys_In | reflexivity].
Qed.

Lemma groupby_key_In (df : list A) (r : A) :
  In r df -> exists g, In g (Frame.groupby by_ df) /\ fst g = Frame.key_of by_ r /\ In r (snd g).
Proof.
  intros Hr. eexists (Frame.key_of by_ r, _). split; [|split; [reflexivity|]].
  - unfold Frame.groupby. apply in_map_iff. exists (Frame.key_of by_ r). split; [reflexivity|].
    apply group_keys_In. eauto.
  - simpl. apply filter_In. split; [assumption|]. now apply key_eqb_eq.
Qed.

End FrameFacts.

(** ** The order of the rows in the PDF *)

Lemma StronglySorted_app {A} (R : A -> A -> Prop) (l1 l2 : list A) :
  StronglySorted R l1 -> StronglySorted R l2 ->
  (forall x y, In x l1 -> In y l2 -> R x y) ->
  StronglySorted R (l1 ++ l2).
Proof.
  induction 1 as [|x l1 S IH F]; simpl; intros S2 H; [assumption|].
  constructor.
  - apply IH; [assumption|]. intros; apply H; simpl; auto.
  - rewrite Forall_forall in *. intros y Hy. apply in_app_or in Hy.
    destruct Hy; [now apply F | apply H; simpl; auto].
Qed.

Lemma StronglySorted_impl_In {A} (R R' : A -> A -> Prop) (l : list A) :
  StronglySorted R l ->
  (forall x y, In x l -> In y l -> R x y -> R' x y) ->
  StronglySorted R' l.
Proof.
  induction 1 as [|x l S IH F]; intros H; constructor.
  - apply IH. intros; apply H; simpl; auto.
  - rewrite Forall_forall in *. intros y Hy. apply H; simpl; auto.
Qed.

Lemma flat_map_sorted {A} (R : A -> A -> Prop) (f : KeyOrder.key -> list A)
    (ks : list KeyOrder.key) :
  StronglySorted KeyOrder.lt ks ->
  (forall k, In k ks -> StronglySorted R (f k)) ->
  (forall k1 k2 r1 r2, KeyOrder.lt k1 k2 -> In r1 (f k1) -> In r2 (f k2) -> R r1 r2) ->
  StronglySorted R (flat_map f ks).
Proof.
  induction 1 as [|k ks S IH F]; simpl; intros Hin Hx; [constructor|].
  apply StronglySorted_app.
  - apply Hin; auto.
  - apply IH; auto.
  - intros x y Hx1 Hy. apply in_flat_map in Hy. destruct Hy as (k' & Hk' & Hy).
    rewrite Forall_forall in F. eapply Hx; [apply F; eassumption| |]; eassumption.
Qed.

Lemma key_lt_NoDup (ks : list KeyOrder.key) :
  StronglySorted KeyOrder.lt ks -> NoDup ks.
Proof.
  induction 1 as [|k ks S IH F]; constructor; [|assumption].
  intros Hk. rewrite Forall_forall in F. specialize (F _ Hk).
  unfold KeyOrder.lt in F. now rewrite key_ltb_irrefl in F.
Qed.

(** The groups of [groupby], concatenated, hold the rows of the frame: no
    row is lost or repeated. *)
Lemma groups_partition {A} (key : A -> KeyOrder.key) (df : list A)
    (ks : list KeyOrder.key) :
  NoDup ks -> (forall r, In r df -> In (key r) ks) ->
  Permutation (flat_map (fun k => filter (fun r => KeyOrder.eqb (key r) k) df) ks) df.
Proof.
  revert ks. induction df as [|x df IH]; intros ks ND Hall.
  - clear. induction ks; simpl; auto.
  - assert (Hx : In (key x) ks) by (apply Hall; simpl; auto).
    assert (Hrest : forall r, In r df -> In (key r) ks) by (intros; apply Hall; simpl; auto).
    transitivity (x :: flat_map (fun k => filter (fun r => KeyOrder.eqb (key r) k) df) ks);
      [|constructor; now apply IH].
    clear IH Hall Hrest.
    induction ks as [|k ks IHk]; [destruct Hx|].
    inversion ND as [|? ? Hn ND']; subst. simpl.
    destruct (KeyOrder.eqb (key x) k) eqn:E.
    + apply key_eqb_eq in E. subst k. simpl. constructor.
      apply Permutation_app_head.
      clear IHk Hx ND ND'. induction ks as [|k' ks IH']; simpl; [reflexivity|].
      destruct (KeyOrder.eqb (key x) k') eqn:E'.
      * apply key_eqb_eq in E'. exfalso. apply Hn. simpl; auto.
      * apply Permutation_app_head. apply IH'. intros H; apply Hn; simpl; auto.
    + destruct Hx as [Hx|Hx].
      * subst k. rewrite (proj2 (key_eqb_eq _ _) eq_refl) in E. discriminate.
      * rewrite (IHk ND' Hx). apply Permutation_sym, Permutation_middle.
Qed.


Lemma rendered_rows_flat (tx : list TxRow) :
  report_pdf.rendered_rows tx =
  flat_map (fun k => filter (fun r => KeyOrder.eqb (Frame.key_of by_account_status r) k)
                            (Frame.sort_values by_account_action tx))
           (Frame.group_keys by_account_status (Frame.sort_values by_account_action tx)).
Proof.
  unfold report_pdf.rendered_rows, report_pdf.sections, Frame.groupby.
  fold by_account_status by_account_action.
  generalize (Frame.group_keys by_account_status (Frame.sort_values by_account_action tx)).
  intros ks. induction ks as [|k ks IH]; simpl; [reflexivity|]. f_equal. exact IH.
Qed.

Lemma rendered_rows_perm (tx : list TxRow) : Permutation (report_pdf.rendered_rows tx) tx.
Proof.
  rewrite rendered_rows_flat.
  etransitivity; [|apply (sort_values_perm by_account_action)].
  apply groups_partition.
  - apply key_lt_NoDup, group_keys_sorted.
  - intros r Hr. apply group_keys_In. eauto.
Qed.

Lemma section_order_same_section (r1 r2 : TxRow) :
  Frame.key_of by_account_status r1 = Frame.key_of by_account_status r2 ->
  Frame.row_le by_account_action r1 r2 ->
  Frame.row_le by_section_then_action r1 r2.
Proof.
  unfold Frame.row_le, KeyOrder.leb. simpl. intros E. injection E as EA ET.
  rewrite EA, ET, !str_compare_refl. trivial.
Qed.

Lemma section_order_across_sections (r1 r2 : TxRow) :
  KeyOrder.lt (Frame.key_of by_account_status r1) (Frame.key_of by_account_status r2) ->
  Frame.row_le by_section_then_action r1 r2.
Proof.
  intros L. apply key_ltb_leb.
  apply (key_ltb_app_prefix (Frame.key_of by_account_status r1)
           (Frame.key_of by_account_status r2)
           [Action r1; Sleeve r1; Identifier r1] [Action r2; Sleeve r2; Identifier r2]);
    [reflexivity | exact L].
Qed.

Lemma rendered_rows_section_sorted (tx : list TxRow) :
  Frame.sorted_by by_section_then_action (report_pdf.rendered_rows tx).
Proof.
  unfold Frame.sorted_by. rewrite rendered_rows_flat.
  apply flat_map_sorted.
  - apply group_keys_sorted.
  - intros k _.
    eapply StronglySorted_impl_In.
    + apply sorted_by_filter. apply (sort_values_sorted by_account_action).
    + intros x y Hx Hy. apply filter_In in Hx, Hy.
      destruct Hx as [_ Hx], Hy as [_ Hy]. apply key_eqb_eq in Hx, Hy.
      apply section_order_same_section. congruence.
  - intros k1 k2 r1 r2 L H1 H2. apply filter_In in H1, H2.
    destruct H1 as [_ H1], H2 as [_ H2]. apply key_eqb_eq in H1, H2. subst.
    now apply section_order_across_sections.
Qed.


Lemma single_status_spec (tx : list TxRow) (r1 r2 : TxRow) :
  single_status tx = true -> In r1 tx -> In r2 tx ->
  Account r1 = Account r2 -> TaxStatus r1 = TaxStatus r2.
Proof.
  unfold single_status. rewrite forallb_forall. intros H H1 H2 E.
  specialize (H _ H1). rewrite forallb_forall in H. specialize (H _ H2).
  rewrite E, String.eqb_refl in H. simpl in H. now apply String.eqb_eq.
Qed.

Lemma section_order_single_status (tx : list TxRow) (r1 r2 : TxRow) :
  single_status tx = true -> In r1 tx -> In r2 tx ->
  Frame.row_le by_section_then_action r1 r2 ->
  Frame.row_le by_account_action r1 r2.
Proof.
  intros S H1 H2. unfold Frame.row_le, KeyOrder.leb. simpl.
  destruct (String_as_OT.compare (Account r1) (Account r2)) eqn:E; auto.
  apply str_compare_eq in E.
  rewrite (single_status_spec tx r1 r2 S H1 H2 E), str_compare_refl. trivial.
Qed.

(** ** The summaries and the PDF sections *)


Lemma hd_error_filter {A} (f : A -> bool) (l : list A) (x : A) :
  In x l -> f x = true -> exists y, hd_error (filter f l) = Some y.
Proof.
  intros Hx Hf. destruct (filter f l) as [|y l'] eqn:E; simpl; eauto.
  assert (H : In x (filter f l)) by (apply filter_In; auto).
  rewrite E in H. destruct H.
Qed.

Lemma acc_sum_has_row (env : cli.Collaborators) (tx : list TxRow) (r : TxRow) :
  In r tx ->
  exists s, In s (cli.acc_sum env (cli.add_buy_sell tx))
            /\ acc_Account (summary s) = Account r
            /\ acc_TaxStatus (summary s) = TaxStatus r.
Proof.
  intros Hr.
  pose (rb := {| base := r;
                 Buy_ := cli.where_ (Delta_Dollars r) (Action r =? "BUY") 0;
                 Sell_ := cli.where_ (- Delta_Dollars r) (Action r =? "SELL") 0 |}).
  assert (Hrb : In rb (cli.add_buy_sell tx)).
  { unfold cli.add_buy_sell. apply in_map_iff. exists r. split; [reflexivity|assumption]. }
  destruct (groupby_key_In by_account_status_bs _ _ Hrb) as (g & Hg & Hk & _).
  unfold cli.acc_sum, cli.add_est_tax, cli.acc_agg.
  fold by_account_status_bs.
  eexists. split.
  - apply in_map. apply in_map. exact Hg.
  - destruct g as [k rows]. simpl in Hk. subst k. simpl. auto.
Qed.

Lemma lookup_summary_some (env : cli.Collaborators) (tx : list TxRow) (r : TxRow) :
  In r tx ->
  exists s, report_pdf.lookup_summary (cli.acc_sum env (cli.add_buy_sell tx))
              (Account r) (TaxStatus r) = Some s.
Proof.
  intros Hr. destruct (acc_sum_has_row env tx r Hr) as (s & Hs & EA & ET).
  unfold report_pdf.lookup_summary, Frame.iloc0.
  apply hd_error_filter with (x := s); [assumption|].
  rewrite EA, ET, !String.eqb_refl. reflexivity.
Qed.

Lemma section_key (tx : list TxRow) (g : KeyOrder.key * list TxRow) :
  In g (report_pdf.sections tx) ->
  exists r, In r tx /\ fst g = [Account r; TaxStatus r].
Proof.
  intros Hg. apply groupby_In in Hg. destruct Hg as ((r & Hr & Hk) & _).
  exists r. split; [now apply sort_values_In in Hr | now symmetry].
Qed.

Lemma account_sections_ok (acc_sum : list (WithTax AccAgg))
    (grps : list (KeyOrder.key * list TxRow)) :
  (forall g, In g grps ->
     exists s, report_pdf.lookup_summary acc_sum (nth 0 (fst g) "") (nth 1 (fst g) "") = Some s) ->
  exists ops, report_pdf.account_sections acc_sum grps = Py.Ok ops.
Proof.
  induction grps as [|g grps IH]; simpl; intros H; [eauto|].
  destruct (H g (or_introl eq_refl)) as (s & Hs).
  destruct IH as (ops' & Hops'); [intros; apply H; auto|].
  unfold report_pdf.account_section. rewrite Hs, Hops'. eauto.
Qed.

Lemma render_pdf_ok (env : cli.Collaborators) (font : string) (tx : list TxRow)
    (by_status : list (WithTax StatusAgg)) (tag : Z) (outfile : string) :
  exists ops,
    report_pdf.render_pdf font tx (cli.acc_sum env (cli.add_buy_sell tx)) by_status tag
      outfile
    = Py.Ok ops.
Proof.
  unfold report_pdf.render_pdf.
  destruct (account_sections_ok (cli.acc_sum env (cli.add_buy_sell tx))
              (report_pdf.sections tx))
    as (body & Hbody).
  - intros g Hg. destruct (section_key tx g Hg) as (r & Hr & Hk).
    destruct g as [k rows]. simpl in Hk. subst k. simpl. now apply lookup_summary_some.
  - rewrite Hbody. eauto.
Qed.

(** A rendering that returns has written the file, last of all. *)
Lemma render_pdf_output (font : string) (tx : list TxRow)
    (acc_sum : list (WithTax AccAgg)) (by_status : list (WithTax StatusAgg))
    (tag : Z) (outfile : string) (ops : list report_pdf.PdfOp) :
  report_pdf.render_pdf font tx acc_sum by_status tag outfile = Py.Ok ops ->
  exists calls, ops = calls ++ [report_pdf.output outfile].
Proof.
  unfold report_pdf.render_pdf.
  destruct (report_pdf.account_sections acc_sum (report_pdf.sections tx)) as [body|e];
    [|discriminate].
  intros E. injection E as <-.
  exists ([report_pdf.FPDF "P" "mm" "Letter"; report_pdf.set_auto_page_break true 12;
           report_pdf.add_page; report_pdf.add_font "Unicode" "" font;
           report_pdf.set_font "Unicode" 12;
           report_pdf.cell 0 8
             ("Transaction List - Target " ++ Py.str tag ++ "% Vol (Real Terms)")%string
             0 1 ""]
          ++ body
          ++ [report_pdf.ln 4; report_pdf.set_font "Unicode" 11;
              report_pdf.cell 0 7 "Tax Status Summary" 0 1 ""]
          ++ map (fun c => let '(h, w, a) := c in report_pdf.cell w 7 h 1 0 a)
                 report_pdf.ts_cols
          ++ [report_pdf.ln 7; report_pdf.set_font "Unicode" 9]
          ++ flat_map report_pdf.status_row by_status).
  rewrite <- !app_assoc. reflexivity.
Qed.

(** ** The trace of a run *)



Lemma report_trace (env : cli.Collaborators) (tag : Z) (tx : list TxRow)
    (after : list Holding) (residuals : Residuals) :
  cli.report env tag tx after residuals =
  (outputs env tx after ++ warnings residuals ++ fst (pdf_step env tag tx),
   snd (pdf_step env tag tx)).
Proof.
  unfold cli.report, pdf_step, outputs, warnings.
  assert (W : cli.for_each residuals (fun '(acct, amt) => cli.print (cli.warn_line acct amt))
              = (map (fun p => cli.Print (cli.warn_line (fst p) (snd p))) residuals, Py.Ok tt)).
  { clear. induction residuals as [|[acct amt] rest IH]; simpl; [reflexivity|].
    rewrite IH. reflexivity. }
  simpl. rewrite W. simpl.
  destruct (negb (Frame.empty tx)).
  - destruct (report_pdf.render_pdf _ _ _ _ _ _); simpl; reflexivity.
  - simpl. reflexivity.
Qed.

(** ** The structure of [main] *)

Lemma main_run (env : cli.Collaborators) (args : cli.Args) (tag : Z)
    (h : list Holding) (W : Weights) (tx : list TxRow) (after : list Holding)
    (residuals : Residuals) :
  cli.vol_pct_tag (cli.vol args) = Py.Ok tag ->
  cli.load_holdings env (cli.holdings args) = Py.Ok h ->
  cli.load_targets env tag = Py.Ok W ->
  cli.build_trades_and_afterholdings env h W (cli.cash_tol args) = (tx, after, residuals) ->
  cli.main env args =
  (preamble args tag ++ outputs env tx after ++ warnings residuals
     ++ fst (pdf_step env tag tx),
   snd (pdf_step env tag tx)).
Proof.
  intros Htag Hh HW Hb. unfold cli.main, preamble.
  rewrite Htag. simpl. rewrite Hh. simpl. rewrite HW. simpl. rewrite Hb.
  rewrite report_trace. reflexivity.
Qed.

Lemma pdf_step_ok (env : cli.Collaborators) (tag : Z) (tx : list TxRow) :
  snd (pdf_step env tag tx) = Py.Ok tt
  /\ (if Frame.empty tx
      then fst (pdf_step env tag tx) = [cli.Print "No trades; PDF skipped."]
      else exists ops,
          fst (pdf_step env tag tx) =
          [cli.RenderPdf ops; cli.Print ("PDF written: " ++ cli.pdf_out env tag)]).
Proof.
  unfold pdf_step. destruct (Frame.empty tx); simpl; [split; reflexivity|].
  destruct (render_pdf_ok env (cli.ensure_unicode_font env) tx
              (cli.by_status env (cli.add_buy_sell tx)) tag (cli.pdf_out env tag))
    as (ops & ->).
  simpl. split; [reflexivity|eauto].
Qed.

(** The PDF step of a run: the calls recorded are those [render_pdf]
    returns for the table and its two summaries, and the last of them
    writes the file. *)
Lemma pdf_step_rendered (env : cli.Collaborators) (tag : Z) (tx : list TxRow) :
  Frame.empty tx = false ->
  exists ops calls,
    report_pdf.render_pdf (cli.ensure_unicode_font env) tx
      (cli.acc_sum env (cli.add_buy_sell tx)) (cli.by_status env (cli.add_buy_sell tx))
      tag (cli.pdf_out env tag) = Py.Ok ops
    /\ ops = calls ++ [report_pdf.output (cli.pdf_out env tag)]
    /\ pdf_step env tag tx =
       ([cli.RenderPdf ops; cli.Print ("PDF written: " ++ cli.pdf_out env tag)], Py.Ok tt).
Proof.
  intros E. unfold pdf_step. rewrite E. simpl.
  destruct (render_pdf_ok env (cli.ensure_unicode_font env) tx
              (cli.by_status env (cli.add_buy_sell tx)) tag (cli.pdf_out env tag))
    as (ops & Hops).
  destruct (render_pdf_output _ _ _ _ _ _ _ Hops) as (calls & Hc).
  exists ops, calls. rewrite Hops. auto.
Qed.

Lemma report_no_load (env : cli.Collaborators) (tag tag' : Z) (tx : list TxRow)
    (after : list Holding) (residuals : Residuals) :
  ~ In (cli.LoadTargets tag') (fst (cli.report env tag tx after residuals)).
Proof.
  rewrite report_trace. cbn [fst]. intros H.
  apply in_app_or in H. destruct H as [H|H].
  - simpl in H. repeat destruct H as [H|H]; try discriminate; auto.
  - apply in_app_or in H. destruct H as [H|H].
    + unfold warnings in H. apply in_map_iff in H. destruct H as (p & E & _). discriminate.
    + destruct (pdf_step_ok env tag tx) as [_ Hp].
      destruct (Frame.empty tx).
      * rewrite Hp in H. simpl in H. destruct H as [H|[]]. discriminate.
      * destruct Hp as (ops & Hp). rewrite Hp in H. simpl in H.
        destruct H as [H|[H|[]]]; discriminate.
Qed.



(** ** The specified engine: what it emits *)

Lemma sleeve_rows_In (a s : string) (hs : list Holding) (h : Holding) :
  In h (Engine.sleeve_rows a s hs) -> In h hs /\ h_account h = a /\ h_sleeve h = s.
Proof.
  unfold Engine.sleeve_rows. rewrite filter_In, andb_true_iff, !String.eqb_eq. tauto.
Qed.

Lemma position_key (cfg : Engine.Config) (a s : string) (hs : list Holding) :
  h_account (Engine.position cfg a s hs) = a /\ h_sleeve (Engine.position cfg a s hs) = s.
Proof.
  unfold Engine.position. destruct (Engine.sleeve_rows a s hs) as [|h l] eqn:E; simpl; auto.
  assert (H : In h (Engine.sleeve_rows a s hs)) by (rewrite E; simpl; auto).
  apply sleeve_rows_In in H. tauto.
Qed.

(** The Projector finds the very position a trade was synthesized for. *)
Lemma find_position (t : TxRow) (a s : string) (hs : list Holding) :
  Account t = a -> Sleeve t = s ->
  match Engine.sleeve_rows a s hs with
  | h :: _ => Identifier t = h_identifier h -> find (Engine.matches t) hs = Some h
  | [] => find (Engine.matches t) hs = None
  end.
Proof.
  intros EA ES. induction hs as [|x hs IH]; simpl; [reflexivity|].
  unfold Engine.matches at 1 3. rewrite EA, ES.
  destruct (h_account x =? a) eqn:E1; simpl; [destruct (h_sleeve x =? s) eqn:E2; simpl|].
  - intros ->. now rewrite String.eqb_refl.
  - exact IH.
  - exact IH.
Qed.

(** What one request yields. *)
Lemma synthesize_inv (cfg : Engine.Config) (p : Holding) (d : Q) (t : TxRow) :
  Engine.synthesize cfg p d = Some t ->
  Account t = h_account p /\ TaxStatus t = h_tax_status p
  /\ Identifier t = h_identifier p /\ Sleeve t = h_sleeve p
  /\ Price t = h_price p /\ AverageCost t = h_average_cost p
  /\ ((Action t = "BUY" /\ Shares_Delta t = Engine.requested_shares cfg p d
       /\ CapGain_Dollars t = 0)
      \/ (Action t = "SELL"
          /\ Shares_Delta t = Qmin (Engine.requested_shares cfg p d) (h_shares p)
          /\ CapGain_Dollars t = (h_price p - h_average_cost p) * Shares_Delta t)).
Proof.
  unfold Engine.synthesize.
  destruct (Py.Qltb (Qabs d) (Engine.min_trade cfg)); [discriminate|].
  intros H. injection H as <-. simpl.
  destruct (Py.Qltb 0 d); simpl; repeat split; auto.
Qed.

Lemma trades_In (cfg : Engine.Config) (hs : list Holding) (W : Weights) (t : TxRow) :
  In t (Engine.trades cfg hs W) ->
  exists a s, In a (Engine.accounts hs) /\ In s (Engine.sleeves a hs W)
              /\ Engine.synthesize cfg (Engine.position cfg a s hs)
                   (Engine.delta_dollars cfg a s hs W) = Some t.
Proof.
  unfold Engine.trades. rewrite sort_values_In.
  unfold Engine.all_trades, Engine.account_trades.
  rewrite in_flat_map. intros (a & Ha & H). rewrite in_flat_map in H.
  destruct H as (s & Hs & H). exists a, s. split; [assumption|]. split; [assumption|].
  destruct (Engine.synthesize _ _ _) as [t'|]; simpl in H; [|destruct H].
  destruct H as [->|[]]. reflexivity.
Qed.

(** A trade of the engine, with the position it was synthesized for. *)
Lemma trade_position (cfg : Engine.Config) (hs : list Holding) (W : Weights) (t : TxRow) :
  In t (Engine.trades cfg hs W) ->
  let p := Engine.position cfg (Account t) (Sleeve t) hs in
  Engine.synthesize cfg p (Engine.delta_dollars cfg (Account t) (Sleeve t) hs W) = Some t
  /\ In (Account t) (Engine.accounts hs)
  /\ In (Sleeve t) (Engine.sleeves (Account t) hs W).
Proof.
  intros H. destruct (trades_In cfg hs W t H) as (a & s & Ha & Hs & Hsyn).
  destruct (synthesize_inv _ _ _ _ Hsyn) as (EA & _ & _ & ES & _).
  destruct (position_key cfg a s hs) as [PA PS]. rewrite PA in EA. rewrite PS in ES.
  subst a s. simpl. auto.
Qed.

Lemma held_position (cfg : Engine.Config) (hs : list Holding) (W : Weights) (t : TxRow) :
  In t (Engine.trades cfg hs W) ->
  Engine.held t hs = h_shares (Engine.position cfg (Account t) (Sleeve t) hs)
  /\ match find (Engine.matches t) hs with
     | Some h => h = Engine.position cfg (Account t) (Sleeve t) hs
     | None => Engine.sleeve_rows (Account t) (Sleeve t) hs = []
     end.
Proof.
  intros H. destruct (trade_position cfg hs W t H) as (Hsyn & _).
  destruct (synthesize_inv _ _ _ _ Hsyn) as (_ & _ & EI & _).
  pose proof (find_position t (Account t) (Sleeve t) hs eq_refl eq_refl) as F.
  unfold Engine.held. unfold Engine.position in *.
  destruct (Engine.sleeve_rows (Account t) (Sleeve t) hs) as [|h l].
  - rewrite F. simpl. auto.
  - rewrite (F EI). auto.
Qed.

(** ** The specified engine: cash flows *)

Lemma sum_app {A} (f : A -> Q) (l1 l2 : list A) :
  Frame.sum f (l1 ++ l2) == Frame.sum f l1 + Frame.sum f l2.
Proof.
  induction l1 as [|x l1 IH]; simpl; [ring|]. rewrite IH. ring.
Qed.


Lemma filter_perm {A} (f : A -> bool) (l l' : list A) :
  Permutation l l' -> Permutation (filter f l) (filter f l').
Proof.
  induction 1 as [|x l l' _ IH|x y l|l l' l'' _ IH1 _ IH2]; simpl.
  - constructor.
  - destruct (f x); [now constructor|assumption].
  - destruct (f x), (f y); try reflexivity. apply perm_swap.
  - now transitivity (filter f l').
Qed.




Lemma filter_none {A} (f : A -> bool) (l : list A) :
  (forall x, In x l -> f x = false) -> filter f l = [].
Proof.
  induction l as [|x l IH]; simpl; intros H; [reflexivity|].
  rewrite (H x (or_introl eq_refl)). apply IH. intros; apply H; auto.
Qed.

Section Synth.

(** A synthesizer that labels its transaction with the account and the
    sleeve of the position: the clamped one and the unclamped one do. *)
Variable synth : Engine.Config -> Holding -> Q -> option TxRow.
Hypothesis synth_key :
  forall cfg p d t, synth cfg p d = Some t ->
                    Account t = h_account p /\ Sleeve t = h_sleeve p.

Variable cfg : Engine.Config.
Variable hs : list Holding.
Variable W : Weights.




End Synth.

Lemma synthesize_key (cfg : Engine.Config) (p : Holding) (d : Q) (t : TxRow) :
  Engine.synthesize cfg p d = Some t ->
  Account t = h_account p /\ Sleeve t = h_sleeve p.
Proof. intros H. apply synthesize_inv in H. tauto. Qed.




Lemma trades_perm (cfg : Engine.Config) (hs : list Holding) (W : Weights) :
  Permutation (Engine.trades cfg hs W) (Engine.all_trades Engine.synthesize cfg hs W).
Proof. apply sort_values_perm. Qed.



(** ** The specified engine: value conservation *)


Lemma account_value_cons (a : string) (h : Holding) (hs : list Holding) :
  account_value a (h :: hs)
  = (if h_account h =? a then h_shares h * h_price h + account_value a hs
     else account_value a hs).
Proof.
  unfold account_value, Engine.account_rows. simpl.
  destruct (h_account h =? a); reflexivity.
Qed.

Lemma account_value_app (a : string) (l1 l2 : list Holding) :
  account_value a (l1 ++ l2) == account_value a l1 + account_value a l2.
Proof.
  unfold account_value, Engine.account_rows, Engine.market_value.
  rewrite filter_app. apply sum_app.
Qed.

Lemma matches_account (t : TxRow) (h : Holding) :
  Engine.matches t h = true ->
  h_account h = Account t /\ h_sleeve h = Sleeve t /\ h_identifier h = Identifier t.
Proof.
  unfold Engine.matches. rewrite !andb_true_iff, !String.eqb_eq. tauto.
Qed.

Lemma cash_flow_buy (t : TxRow) :
  Action t = "BUY" -> Engine.cash_flow t = - (Price t * Shares_Delta t).
Proof. unfold Engine.cash_flow. intros ->. reflexivity. Qed.

Lemma cash_flow_sell (t : TxRow) :
  Action t = "SELL" -> Engine.cash_flow t = Price t * Shares_Delta t.
Proof. unfold Engine.cash_flow. intros ->. reflexivity. Qed.

(** One transaction moves the value of its account by the opposite of its
    cash flow, and leaves the other accounts alone. *)
Lemma apply_tx_value (cfg : Engine.Config) (a : string) (t : TxRow) (hs : list Holding) :
  tx_ok hs t ->
  account_value a (Engine.apply_tx cfg t hs)
  == account_value a hs - (if Account t =? a then Engine.cash_flow t else 0).
Proof.
  unfold tx_ok. intros [Hact Hfind].
  induction hs as [|h hs IH].
  - simpl in *. destruct Hact as [EB|ES].
    + rewrite EB. simpl. rewrite account_value_cons. simpl.
      rewrite (cash_flow_buy t EB).
      destruct (Account t =? a); unfold account_value; simpl; ring.
    + rewrite ES. simpl. destruct Hfind as [EB|Hz]; [congruence|].
      rewrite (cash_flow_sell t ES).
      destruct (Account t =? a); unfold account_value; simpl; rewrite ?Hz; ring.
  - simpl in *. destruct (Engine.matches t h) eqn:M.
    + apply matches_account in M. destruct M as (MA & _).
      rewrite account_value_app, account_value_cons, MA.
      destruct Hact as [EB|ES].
      * rewrite EB. simpl. rewrite account_value_cons. simpl. rewrite MA.
        rewrite (cash_flow_buy t EB), <- Hfind.
        destruct (Account t =? a); unfold account_value; simpl; ring.
      * rewrite ES. simpl. rewrite (cash_flow_sell t ES), <- Hfind.
        unfold Engine.sell_from.
        destruct (Engine.drop_zero cfg && Qeq_bool (h_shares h - Shares_Delta t) 0) eqn:D.
        -- apply andb_true_iff in D. destruct D as [_ D]. apply Qeq_bool_eq in D.
           assert (E : h_shares h == Shares_Delta t).
           { rewrite <- (Qplus_0_l (Shares_Delta t)), <- D. ring. }
           destruct (Account t =? a); unfold account_value; simpl; [rewrite E|]; ring.
        -- rewrite account_value_cons. simpl. rewrite MA.
           destruct (Account t =? a); unfold account_value; simpl; ring.
    + rewrite !account_value_cons.
      destruct (h_account h =? a); rewrite (IH Hfind); ring.
Qed.

(** A transaction does not disturb the position of a transaction for
    another (account, sleeve) pair. *)
Lemma apply_tx_find_other (cfg : Engine.Config) (t t' : TxRow) (hs : list Holding) :
  tx_key t <> tx_key t' ->
  match find (Engine.matches t') (Engine.apply_tx cfg t hs),
        find (Engine.matches t') hs with
  | Some h1, Some h2 => h_price h1 = h_price h2
  | None, None => True
  | _, _ => False
  end.
Proof.
  unfold tx_key. intros K.
  assert (Other : forall h, h_account h = Account t -> h_sleeve h = Sleeve t ->
                            Engine.matches t' h = false).
  { intros h EA ES. unfold Engine.matches. rewrite EA, ES.
    destruct (Account t =? Account t') eqn:E1; simpl; [|reflexivity].
    destruct (Sleeve t =? Sleeve t') eqn:E2; simpl; [|reflexivity].
    apply String.eqb_eq in E1, E2. exfalso. apply K. congruence. }
  induction hs as [|h hs IH]; simpl.
  - destruct (Action t =? "BUY"); simpl; [|trivial].
    rewrite Other by reflexivity. trivial.
  - destruct (Engine.matches t h) eqn:M.
    + apply matches_account in M. destruct M as (MA & MS & _).
      rewrite (Other h MA MS).
      assert (Same : find (Engine.matches t')
                       ((if Action t =? "BUY" then [Engine.buy_into h t]
                         else Engine.sell_from cfg h t) ++ hs)
                     = find (Engine.matches t') hs).
      { destruct (Action t =? "BUY"); simpl.
        - rewrite Other by (simpl; assumption). reflexivity.
        - unfold Engine.sell_from. destruct (_ && _); simpl; [reflexivity|].
          rewrite Other by (simpl; assumption). reflexivity. }
      rewrite Same. destruct (find (Engine.matches t') hs); trivial.
    + simpl. destruct (Engine.matches t' h); [reflexivity|exact IH].
Qed.

Lemma apply_tx_ok_other (cfg : Engine.Config) (t t' : TxRow) (hs : list Holding) :
  tx_key t <> tx_key t' -> tx_ok hs t' -> tx_ok (Engine.apply_tx cfg t hs) t'.
Proof.
  intros K [Hact Hfind]. split; [assumption|].
  pose proof (apply_tx_find_other cfg t t' hs K) as F.
  destruct (find (Engine.matches t') (Engine.apply_tx cfg t hs)),
           (find (Engine.matches t') hs); try contradiction; congruence.
Qed.

Lemma net_cash_flow_cons (a : string) (t : TxRow) (tx : list TxRow) :
  Engine.net_cash_flow a (t :: tx)
  == (if Account t =? a then Engine.cash_flow t else 0) + Engine.net_cash_flow a tx.
Proof.
  unfold Engine.net_cash_flow. simpl. destruct (Account t =? a); simpl; ring.
Qed.

(** The Projector moves the value of an account by the opposite of its net
    cash flow. *)
Lemma project_value (cfg : Engine.Config) (a : string) (tx : list TxRow) :
  forall hs,
    NoDup (map tx_key tx) -> Forall (tx_ok hs) tx ->
    account_value a (Engine.project cfg tx hs)
    == account_value a hs - Engine.net_cash_flow a tx.
Proof.
  unfold Engine.project.
  induction tx as [|t tx IH]; intros hs ND OK; simpl.
  - unfold Engine.net_cash_flow. simpl. ring.
  - inversion ND as [|? ? Hn ND']; subst. inversion OK as [|? ? Ht OK']; subst.
    rewrite IH; [|assumption|].
    + rewrite (apply_tx_value cfg a t hs Ht), net_cash_flow_cons. ring.
    + rewrite Forall_forall in *. intros t' Ht'.
      apply apply_tx_ok_other; [|now apply OK'].
      intros E. apply Hn. rewrite E. now apply in_map.
Qed.

Lemma round_half_away_nonneg (y : Q) : 0 <= y -> (0 <= Engine.round_half_away y)%Z.
Proof.
  intros H. unfold Engine.round_half_away.
  rewrite (proj2 (Qle_bool_iff 0 y) H).
  change 0%Z with (Qfloor 0). apply Qfloor_resp_le. lra.
Qed.

Lemma round_half_away_nonpos (y : Q) : y <= 0 -> (Engine.round_half_away y <= 0)%Z.
Proof.
  intros H. unfold Engine.round_half_away.
  destruct (Qle_bool 0 y) eqn:E.
  - apply Qle_bool_iff in E.
    assert (Y : y == 0) by lra.
    rewrite Y. vm_compute. discriminate.
  - assert (P : (0 <= Qfloor (- y + (1 # 2)))%Z).
    { change 0%Z with (Qfloor 0). apply Qfloor_resp_le. lra. }
    lia.
Qed.

(** Rounding to a lot keeps a request non-negative, whatever the lot. *)
Lemma round_lot_nonneg (cfg : Engine.Config) (x : Q) :
  0 <= x -> 0 <= Engine.round_lot cfg x.
Proof.
  intros Hx. unfold Engine.round_lot.
  destruct (Q_dec 0 (Engine.lot cfg)) as [[Hpos|Hneg]|Hz].
  - apply Qmult_le_0_compat; [|now apply Qlt_le_weak].
    change 0 with (inject_Z 0). rewrite <- Zle_Qle. apply round_half_away_nonneg.
    apply Qle_shift_div_l; lra.
  - assert (Hy : x / Engine.lot cfg <= 0).
    { assert (E : x / Engine.lot cfg == - (x / (- Engine.lot cfg))).
      { field. intros Z0. rewrite Z0 in Hneg. discriminate. }
      assert (P : 0 <= x / (- Engine.lot cfg)).
      { apply Qle_shift_div_l; lra. }
      lra. }
    apply round_half_away_nonpos in Hy.
    assert (E : inject_Z (Engine.round_half_away (x / Engine.lot cfg)) * Engine.lot cfg
                == inject_Z (- Engine.round_half_away (x / Engine.lot cfg))
                   * (- Engine.lot cfg)).
    { rewrite inject_Z_opp. ring. }
    rewrite E. apply Qmult_le_0_compat.
    + change 0 with (inject_Z 0). rewrite <- Zle_Qle. lia.
    + lra.
  - generalize (inject_Z (Engine.round_half_away (x / Engine.lot cfg))). intros r.
    rewrite <- Hz, Qmult_0_r. apply Qle_refl.
Qed.

Lemma requested_shares_nonneg (cfg : Engine.Config) (p : Holding) (d : Q) :
  0 <= h_price p -> 0 <= Engine.requested_shares cfg p d.
Proof.
  intros Hp. unfold Engine.requested_shares. apply round_lot_nonneg.
  apply Qmult_le_0_compat; [apply Qabs_nonneg | now apply Qinv_le_0_compat].
Qed.

(** Every trade of the engine is one the Projector can apply. *)
Lemma trades_ok (cfg : Engine.Config) (hs : list Holding) (W : Weights) :
  (forall s, 0 <= snd (Engine.catalogue cfg s)) ->
  Forall (tx_ok hs) (Engine.trades cfg hs W).
Proof.
  intros Hcat. apply Forall_forall. intros t Ht.
  destruct (trade_position cfg hs W t Ht) as (Hsyn & _).
  destruct (held_position cfg hs W t Ht) as (_ & Hfind).
  destruct (synthesize_inv _ _ _ _ Hsyn) as (_ & _ & _ & _ & EP & _ & Hact).
  split.
  - destruct Hact as [(E & _)|(E & _)]; auto.
  - destruct (find (Engine.matches t) hs) as [h|].
    + subst h. now rewrite EP.
    + destruct Hact as [(E & _)|(_ & ES & _)]; [now left|right].
      rewrite ES. unfold Engine.position. rewrite Hfind. simpl.
      apply Q.min_r. apply requested_shares_nonneg. simpl. apply Hcat.
Qed.

Lemma nodup_flat_map {A B} (f : A -> list B) (l : list A) :
  NoDup l ->
  (forall x, In x l -> NoDup (f x)) ->
  (forall x y b, In x l -> In y l -> In b (f x) -> In b (f y) -> x = y) ->
  NoDup (flat_map f l).
Proof.
  induction 1 as [|x l Hn ND IH]; simpl; intros H1 H2; [constructor|].
  apply NoDup_app.
  - apply H1; auto.
  - apply IH; [intros; apply H1; auto | intros; eapply H2; eauto].
  - intros b Hb Hb'. apply in_flat_map in Hb'. destruct Hb' as (y & Hy & Hb').
    assert (x = y) by (eapply H2; eauto). subst. contradiction.
Qed.

Lemma map_flat_map_keys {A B C} (g : B -> C) (f : A -> list B) (l : list A) :
  map g (flat_map f l) = flat_map (fun x => map g (f x)) l.
Proof.
  induction l as [|x l IH]; simpl; [reflexivity|]. now rewrite map_app, IH.
Qed.

(** The engine emits at most one transaction per (account, sleeve). *)
Lemma trades_keys_nodup (cfg : Engine.Config) (hs : list Holding) (W : Weights) :
  NoDup (map tx_key (Engine.trades cfg hs W)).
Proof.
  apply (Permutation_NoDup
           (Permutation_sym (Permutation_map tx_key (trades_perm cfg hs W)))).
  unfold Engine.all_trades. rewrite map_flat_map_keys.
  assert (Key : forall a s k,
             In k (map tx_key
                     (Engine.opt_list
                        (Engine.synthesize cfg (Engine.position cfg a s hs)
                           (Engine.delta_dollars cfg a s hs W)))) ->
             k = (a, s)).
  { intros a s k Hk. destruct (Engine.synthesize _ _ _) as [t|] eqn:E; simpl in Hk;
      [|destruct Hk].
    destruct Hk as [<-|[]]. apply synthesize_key in E.
    destruct (position_key cfg a s hs) as [PA PS]. rewrite PA, PS in E.
    unfold tx_key. destruct E as [-> ->]. reflexivity. }
  apply nodup_flat_map.
  - apply NoDup_nodup.
  - intros a _. unfold Engine.account_trades. rewrite map_flat_map_keys.
    apply nodup_flat_map.
    + apply NoDup_nodup.
    + intros s _. destruct (Engine.synthesize _ _ _); simpl;
        [constructor; [intros []|constructor] | constructor].
    + intros s s' k _ _ H1 H2. apply Key in H1, H2. congruence.
  - intros a a' k _ _ H1 H2. unfold Engine.account_trades in H1, H2.
    rewrite map_flat_map_keys in H1, H2. apply in_flat_map in H1, H2.
    destruct H1 as (s & _ & H1), H2 as (s' & _ & H2).
    apply Key in H1, H2. congruence.
Qed.

Lemma residual_cash_absent (a : string) (tx : list TxRow) (tol : Q) (l : list string) :
  ~ In a l ->
  find (fun p : string * Q => fst p =? a)
       (flat_map (fun a' => let n := Engine.net_cash_flow a' tx in
                            if Qle_bool (Qabs n) tol then [] else [(a', n)]) l)
  = None.
Proof.
  induction l as [|a' l IH]; simpl; intros Hn; [reflexivity|].
  destruct (Qle_bool _ tol); simpl.
  - apply IH. tauto.
  - destruct (String.eqb_spec a' a) as [->|_]; [tauto|]. apply IH. tauto.
Qed.

(** The residual cash of an account of the run: its net cash flow when
    that is beyond the tolerance, nothing otherwise. *)
Lemma residual_cash_reconcile (hs : list Holding) (tx : list TxRow) (tol : Q) (a : string) :
  In a (Engine.accounts hs) ->
  Engine.residual_cash a (Engine.reconcile hs tx tol)
  = if Qle_bool (Qabs (Engine.net_cash_flow a tx)) tol then 0
    else Engine.net_cash_flow a tx.
Proof.
  unfold Engine.residual_cash, Engine.reconcile.
  assert (ND : NoDup (Engine.accounts hs)) by apply NoDup_nodup.
  induction ND as [|a' l Hn ND IH]; simpl; intros Ha; [destruct Ha|].
  destruct (String.eqb_spec a' a) as [->|Hne].
  - destruct (Qle_bool (Qabs (Engine.net_cash_flow a tx)) tol) eqn:E; simpl.
    + now rewrite residual_cash_absent.
    + rewrite String.eqb_refl. reflexivity.
  - destruct Ha as [->|Ha]; [congruence|].
    destruct (Qle_bool (Qabs (Engine.net_cash_flow a' tx)) tol); simpl.
    + now apply IH.
    + rewrite (proj2 (String.eqb_neq a' a) Hne). now apply IH.
Qed.


(** ** The summaries, group by group *)

Lemma key2_eqb (a t a' t' : string) :
  KeyOrder.eqb [a; t] [a'; t'] = (a =? a') && (t =? t').
Proof.
  apply eq_true_iff_eq. rewrite key_eqb_eq, andb_true_iff, !String.eqb_eq.
  split; [intros E; injection E; auto | intros [-> ->]; reflexivity].
Qed.

Lemma filter_map_comm {A B} (f : A -> B) (p : B -> bool) (l : list A) :
  filter p (map f l) = map f (filter (fun x => p (f x)) l).
Proof.
  induction l as [|x l IH]; simpl; [reflexivity|].
  destruct (p (f x)); simpl; now rewrite IH.
Qed.

(** The table with the two added columns has the groups of the table. *)
Lemma group_keys_add_buy_sell (tx : list TxRow) :
  Frame.group_keys by_account_status_bs (cli.add_buy_sell tx)
  = Frame.group_keys by_account_status tx.
Proof.
  induction tx as [|r tx IH]; simpl; [reflexivity|]. now rewrite IH.
Qed.

Lemma sorted_lt_unique (l1 l2 : list KeyOrder.key) :
  StronglySorted KeyOrder.lt l1 -> StronglySorted KeyOrder.lt l2 ->
  (forall k, In k l1 <-> In k l2) -> l1 = l2.
Proof.
  intros S1. revert l2. induction S1 as [|h1 l1 S1 IH F1]; intros l2 S2 E.
  - destruct l2 as [|h2 l2]; [reflexivity|]. destruct (proj2 (E h2) (or_introl eq_refl)).
  - destruct S2 as [|h2 l2 S2 F2]; [destruct (proj1 (E h1) (or_introl eq_refl))|].
    rewrite Forall_forall in F1, F2.
    assert (Hh : h1 = h2).
    { destruct (proj1 (E h1) (or_introl eq_refl)) as [->|H12]; [reflexivity|].
      destruct (proj2 (E h2) (or_introl eq_refl)) as [->|H21]; [reflexivity|].
      specialize (F1 _ H21). specialize (F2 _ H12).
      unfold KeyOrder.lt, KeyOrder.ltb in F1, F2.
      rewrite (key_compare_antisym h1 h2) in F2.
      destruct (KeyOrder.compare h1 h2); discriminate. }
    subst h2. f_equal. apply IH; [assumption|].
    intros k. split; intros Hk.
    + destruct (proj1 (E k) (or_intror Hk)) as [<-|H]; [|assumption].
      specialize (F1 _ Hk). unfold KeyOrder.lt in F1.
      rewrite key_ltb_irrefl in F1. discriminate.
    + destruct (proj2 (E k) (or_intror Hk)) as [<-|H]; [|assumption].
      specialize (F2 _ Hk). unfold KeyOrder.lt in F2.
      rewrite key_ltb_irrefl in F2. discriminate.
Qed.

(** Sorting a frame does not change its groups. *)
Lemma group_keys_sort_values {A} (by_ by' : @Frame.columns A) (df : list A) :
  Frame.group_keys by_ (Frame.sort_values by' df) = Frame.group_keys by_ df.
Proof.
  apply sorted_lt_unique; try apply group_keys_sorted.
  intros k. rewrite !group_keys_In. split; intros (r & Hr & E); exists r; split; auto.
  - now apply sort_values_In in Hr.
  - now apply sort_values_In.
Qed.

Lemma filter_key_singleton (k : KeyOrder.key) (ks : list KeyOrder.key) :
  NoDup ks -> In k ks -> filter (fun k' => KeyOrder.eqb k' k) ks = [k].
Proof.
  induction 1 as [|x ks Hn ND IH]; simpl; intros Hk; [destruct Hk|].
  destruct (KeyOrder.eqb x k) eqn:E.
  - apply key_eqb_eq in E. subst x. f_equal.
    apply filter_none. intros y Hy. destruct (KeyOrder.eqb y k) eqn:E'; [|reflexivity].
    apply key_eqb_eq in E'. subst. contradiction.
  - destruct Hk as [->|Hk]; [|now apply IH].
    rewrite (proj2 (key_eqb_eq k k) eq_refl) in E. discriminate.
Qed.

Lemma account_status_key_shape (tx : list TxRow) (k : KeyOrder.key) :
  In k (Frame.group_keys by_account_status tx) -> k = [nth 0 k ""; nth 1 k ""].
Proof.
  intros H. apply group_keys_In in H. destruct H as (r & _ & <-). reflexivity.
Qed.

Lemma acc_sum_rows (env : cli.Collaborators) (tx : list TxRow) :
  cli.acc_sum env (cli.add_buy_sell tx)
  = map (account_summary_row env tx) (Frame.group_keys by_account_status tx).
Proof.
  unfold cli.acc_sum, cli.add_est_tax, cli.acc_agg, Frame.groupby.
  fold by_account_status_bs. rewrite group_keys_add_buy_sell, !map_map. reflexivity.
Qed.

Lemma sections_keys (tx : list TxRow) :
  map fst (report_pdf.sections tx) = Frame.group_keys by_account_status tx.
Proof.
  unfold report_pdf.sections, Frame.groupby. fold by_account_status by_account_action.
  rewrite map_map. simpl. rewrite map_id. apply group_keys_sort_values.
Qed.

(** In the summary [main] builds, the filter of a section keeps one row. *)
Lemma summary_filter_singleton (env : cli.Collaborators) (tx : list TxRow)
    (k : KeyOrder.key) :
  In k (Frame.group_keys by_account_status tx) ->
  filter (summary_matches (nth 0 k "") (nth 1 k ""))
         (cli.acc_sum env (cli.add_buy_sell tx))
  = [account_summary_row env tx k].
Proof.
  intros Hk. rewrite acc_sum_rows, filter_map_comm.
  rewrite (filter_ext_in _ (fun k' => KeyOrder.eqb k' k)).
  - rewrite filter_key_singleton; [reflexivity| |assumption].
    apply key_lt_NoDup, group_keys_sorted.
  - intros k' Hk'. unfold summary_matches, account_summary_row. simpl.
    rewrite (account_status_key_shape tx k' Hk') at 3.
    rewrite (account_status_key_shape tx k Hk) at 3.
    symmetry. apply key2_eqb.
Qed.

Lemma add_buy_sell_filter (tx : list TxRow) (k : KeyOrder.key) :
  filter (fun r => KeyOrder.eqb (Frame.key_of by_account_status_bs r) k)
         (cli.add_buy_sell tx)
  = cli.add_buy_sell
      (filter (fun r => KeyOrder.eqb (Frame.key_of by_account_status r) k) tx).
Proof. unfold cli.add_buy_sell. now rewrite filter_map_comm. Qed.

(** The rows of a section are the rows of the table with the section's
    key, up to their order. *)
Lemma section_rows_perm (tx : list TxRow) (g : KeyOrder.key * list TxRow) :
  In g (report_pdf.sections tx) ->
  In (fst g) (Frame.group_keys by_account_status tx)
  /\ Permutation (snd g)
       (filter (fun r => KeyOrder.eqb (Frame.key_of by_account_status r) (fst g)) tx).
Proof.
  intros Hg. split.
  - rewrite <- sections_keys. now apply in_map.
  - apply groupby_In in Hg. destruct Hg as (_ & ->).
    apply filter_perm. apply (sort_values_perm by_account_action).
Qed.

(** ** When [render_pdf] fails *)

Lemma forallb_false_exists {A} (p : A -> bool) (l : list A) :
  forallb p l = false -> exists x, In x l /\ p x = false.
Proof.
  induction l as [|x l IH]; simpl; [discriminate|].
  destruct (p x) eqn:E; simpl.
  - intros H. destruct (IH H) as (y & Hy & Py). eauto.
  - intros _. eauto.
Qed.

Lemma lookup_summary_none (acc_sum : list (WithTax AccAgg)) (acct tax : string) :
  existsb (summary_matches acct tax) acc_sum = false ->
  report_pdf.lookup_summary acc_sum acct tax = None.
Proof.
  intros H. unfold report_pdf.lookup_summary, Frame.iloc0.
  fold (summary_matches acct tax). rewrite filter_none; [reflexivity|].
  intros s Hs. destruct (summary_matches acct tax s) eqn:E; [|reflexivity].
  assert (X : existsb (summary_matches acct tax) acc_sum = true)
    by (apply existsb_exists; eauto).
  congruence.
Qed.

Lemma lookup_summary_found (acc_sum : list (WithTax AccAgg)) (acct tax : string) :
  existsb (summary_matches acct tax) acc_sum = true ->
  exists s, report_pdf.lookup_summary acc_sum acct tax = Some s.
Proof.
  intros H. apply existsb_exists in H. destruct H as (s & Hs & M).
  unfold report_pdf.lookup_summary, Frame.iloc0. fold (summary_matches acct tax).
  now apply hd_error_filter with (x := s).
Qed.

Lemma account_sections_raise (acc_sum : list (WithTax AccAgg))
    (grps : list (KeyOrder.key * list TxRow)) :
  (exists g, In g grps
             /\ report_pdf.lookup_summary acc_sum (nth 0 (fst g) "") (nth 1 (fst g) "")
                = None) ->
  report_pdf.account_sections acc_sum grps = Py.Raise Py.IndexError.
Proof.
  induction grps as [|g0 grps IH]; intros (g & Hg & L); [destruct Hg|].
  simpl. unfold report_pdf.account_section at 1.
  destruct (report_pdf.lookup_summary acc_sum (nth 0 (fst g0) "") (nth 1 (fst g0) ""))
    as [s|] eqn:E0; [|reflexivity].
  destruct Hg as [->|Hg]; [congruence|].
  rewrite IH; [reflexivity|eauto].
Qed.

(** ** Filters applied twice *)

Lemma filter_filter_implied {A} (p q : A -> bool) (l : list A) :
  (forall x, p x = true -> q x = true) -> filter p (filter q l) = filter p l.
Proof.
  intros H. induction l as [|x l IH]; simpl; [reflexivity|].
  destruct (q x) eqn:Q; simpl.
  - now rewrite IH.
  - destruct (p x) eqn:P; [|exact IH]. rewrite (H x P) in Q. discriminate.
Qed.

Lemma filter_filter_excluded {A} (p q : A -> bool) (l : list A) :
  (forall x, p x = true -> q x = false) -> filter p (filter q l) = [].
Proof.
  intros H. apply filter_none. intros x Hx. apply filter_In in Hx.
  destruct (p x) eqn:P; [|reflexivity]. rewrite (H x P) in Hx. destruct Hx. discriminate.
Qed.

(** * The claims *)

(** C1: for every account of the run, the market value of its holdings
    after the trades of the specified engine, plus its residual cash,
    is the market value of its opening holdings, within the cash
    tolerance.  (A sleeve that is not held is bought at the catalogue's
    price, which is not negative.) *)
Theorem C1_value_conservation (cfg : Engine.Config) (hs : list Holding) (W : Weights)
    (cash_tolerance : Q) (a : string) :
  (forall s, 0 <= snd (Engine.catalogue cfg s)) ->
  0 <= cash_tolerance ->
  In a (Engine.accounts hs) ->
  Qabs (account_value a
          (snd (fst (Engine.build_trades_and_afterholdings cfg hs W cash_tolerance)))
        + Engine.residual_cash a
            (snd (Engine.build_trades_and_afterholdings cfg hs W cash_tolerance))
        - account_value a hs)
  <= cash_tolerance.
Proof.
  intros Hcat Htol Ha. unfold Engine.build_trades_and_afterholdings. cbn [fst snd].
  rewrite (project_value cfg a (Engine.trades cfg hs W) hs
             (trades_keys_nodup cfg hs W) (trades_ok cfg hs W Hcat)).
  rewrite (residual_cash_reconcile hs _ cash_tolerance a Ha).
  destruct (Qle_bool (Qabs (Engine.net_cash_flow a (Engine.trades cfg hs W))) cash_tolerance)
    eqn:E.
  - apply Qle_bool_iff in E.
    assert (R : account_value a hs - Engine.net_cash_flow a (Engine.trades cfg hs W)
                + 0 - account_value a hs
                == - Engine.net_cash_flow a (Engine.trades cfg hs W)) by ring.
    rewrite R, Qabs_opp. exact E.
  - assert (R : account_value a hs - Engine.net_cash_flow a (Engine.trades cfg hs W)
                + Engine.net_cash_flow a (Engine.trades cfg hs W) - account_value a hs
                == 0) by ring.
    rewrite R. exact Htol.
Qed.

(** The forced liquidation: $300 of holdings after the trades and a
    residual of -$100, against $200 of opening holdings. *)
Lemma C1_value_conservation_witness :
  account_value "Taxable"
    (snd (fst (Engine.build_trades_and_afterholdings Examples.config
                 Examples.holdings_two_funds Examples.weights_bonds_only 5)))
  == 300
  /\ Engine.residual_cash "Taxable"
       (snd (Engine.build_trades_and_afterholdings Examples.config
               Examples.holdings_two_funds Examples.weights_bonds_only 5))
     == -100
  /\ account_value "Taxable" Examples.holdings_two_funds == 200
  /\
  Qabs (account_value "Taxable"
          (snd (fst (Engine.build_trades_and_afterholdings Examples.config
                       Examples.holdings_two_funds Examples.weights_bonds_only 5)))
        + Engine.residual_cash "Taxable"
            (snd (Engine.build_trades_and_afterholdings Examples.config
                    Examples.holdings_two_funds Examples.weights_bonds_only 5))
        - account_value "Taxable" Examples.holdings_two_funds)
  <= 5.
Proof.
  split; [vm_compute; reflexivity|]. split; [vm_compute; reflexivity|].
  split; [vm_compute; reflexivity|].
  apply (C1_value_conservation Examples.config Examples.holdings_two_funds
           Examples.weights_bonds_only 5 "Taxable").
  - intros s. unfold Examples.config, Examples.catalogue. simpl.
    destruct (s =? "Bonds"); simpl; discriminate.
  - discriminate.
  - vm_compute. left. reflexivity.
Defined.




(** C3: every transaction of the specified engine is a BUY or a SELL; a
    BUY has capital gain 0; a SELL has capital gain (price - average cost)
    x shares_delta, the average cost being that of the position before
    the trade; so a nonzero capital gain is found on SELL rows only. *)
Theorem C3_capital_gain (cfg : Engine.Config) (hs : list Holding) (W : Weights)
    (cash_tolerance : Q) (t : TxRow) :
  In t (fst (fst (Engine.build_trades_and_afterholdings cfg hs W cash_tolerance))) ->
  (Action t = "BUY" \/ Action t = "SELL")
  /\ (Action t = "BUY" -> CapGain_Dollars t = 0)
  /\ (Action t = "SELL" ->
      CapGain_Dollars t = (Price t - AverageCost t) * Shares_Delta t)
  /\ AverageCost t = h_average_cost (Engine.position cfg (Account t) (Sleeve t) hs)
  /\ (~ CapGain_Dollars t == 0 -> Action t = "SELL").
Proof.
  simpl. intros H. destruct (trade_position cfg hs W t H) as (Hsyn & _).
  destruct (synthesize_inv _ _ _ _ Hsyn) as (_ & _ & _ & _ & EP & EC & Hact).
  rewrite EP, EC.
  destruct Hact as [(EA & _ & EG)|(EA & _ & EG)]; rewrite EA, EG.
  - repeat split; auto; try discriminate. intros N. exfalso. apply N. reflexivity.
  - repeat split; auto; discriminate.
Qed.

(** The SELL of the worked example: (200 - 150) x 40 = 2000. *)
Lemma C3_capital_gain_witness :
  CapGain_Dollars Examples.sell_vti
  = (Price Examples.sell_vti - AverageCost Examples.sell_vti)
    * Shares_Delta Examples.sell_vti
  /\ CapGain_Dollars Examples.sell_vti == 2000.
Proof.
  split; [|reflexivity].
  apply (C3_capital_gain Examples.config Examples.holdings Examples.weights 5
           Examples.sell_vti).
  - vm_compute. right. left. reflexivity.
  - reflexivity.
Defined.

(** C4, as the code has it: the CSV holds the engine's rows in the engine's
    order, which the specified engine sorts by (Account, Action, Sleeve,
    Identifier); the PDF renders every row of the table once, section by
    section, in ascending order of (Account, TaxStatus, Action, Sleeve,
    Identifier); when every account carries a single tax status this is
    the order of (Account, Action, Sleeve, Identifier). *)
Theorem C4_report_ordering (tx : list TxRow) :
  (forall env tag after residuals,
      hd_error (fst (cli.report env tag tx after residuals))
      = Some (cli.WriteCsv cli.csv_header tx (cli.csv_out env)))
  /\ (forall cfg hs W, Frame.sorted_by by_account_action (Engine.trades cfg hs W))
  /\ Permutation (report_pdf.rendered_rows tx) tx
  /\ Frame.sorted_by by_section_then_action (report_pdf.rendered_rows tx)
  /\ (single_status tx = true ->
      Frame.sorted_by by_account_action (report_pdf.rendered_rows tx)).
Proof.
  split; [|split; [|split; [|split]]].
  - intros. rewrite report_trace. reflexivity.
  - intros. apply (sort_values_sorted by_account_action).
  - apply rendered_rows_perm.
  - apply rendered_rows_section_sorted.
  - intros S. eapply StronglySorted_impl_In; [apply rendered_rows_section_sorted|].
    intros x y Hx Hy.
    apply (Permutation_in _ (rendered_rows_perm tx)) in Hx, Hy.
    now apply section_order_single_status with (tx := tx).
Qed.

(** The two transactions of the worked example, one account and one tax
    status: the PDF rows are in (Account, Action, Sleeve, Identifier) order. *)
Lemma C4_report_ordering_witness :
  single_status [Examples.sell_vti; Examples.buy_bnd] = true
  /\ Frame.sorted_by by_account_action
       (report_pdf.rendered_rows [Examples.sell_vti; Examples.buy_bnd]).
Proof.
  split; [reflexivity|].
  apply (proj2 (proj2 (proj2 (proj2
           (C4_report_ordering [Examples.sell_vti; Examples.buy_bnd]))))).
  reflexivity.
Defined.

(** C4, as stated, fails in the PDF: with one account under two tax
    statuses the SELL row of the first section is rendered before the BUY
    row of the second, although (Joint, SELL, ...) is greater than
    (Joint, BUY, ...). *)
Lemma C4_pdf_order_counterexample :
  report_pdf.rendered_rows Examples.two_status_tx
  = [Examples.joint_sell; Examples.joint_buy]
  /\ KeyOrder.ltb (Frame.key_of by_account_action Examples.joint_buy)
                  (Frame.key_of by_account_action Examples.joint_sell) = true
  /\ ~ Frame.sorted_by by_account_action
         (report_pdf.rendered_rows Examples.two_status_tx).
Proof.
  split; [reflexivity|]. split; [reflexivity|].
  intros S. change (report_pdf.rendered_rows Examples.two_status_tx)
    with [Examples.joint_sell; Examples.joint_buy] in S.
  inversion S as [|? ? _ F]; subst. inversion F as [|? ? H _]; subst.
  unfold Frame.row_le in H. vm_compute in H. discriminate.
Qed.

(** C5, as the code has it: the estimated tax of every row of the
    per-account and of the per-status summary is [0.0] when the tax status
    is exactly "HSA" or "ROTH IRA", in upper case; the binary64 product of
    the net capital gain and the double [0.20] when it is exactly "Trust";
    and the binary64 product of the net capital gain and the double [0.15]
    for every other status, "Roth IRA" in mixed case among them. *)
Theorem C5_est_tax_by_status (env : cli.Collaborators) (tx : list TxRowBS) :
  (forall s, In s (cli.acc_sum env tx) ->
     let status := acc_TaxStatus (summary s) in
     let gain := acc_Net_CapGain (summary s) in
     (status = "HSA" \/ status = "ROTH IRA" -> Est_Tax s = 0%float)
     /\ (status = "Trust" -> Est_Tax s = (gain * 0x1.999999999999ap-3)%float)
     /\ (status <> "HSA" -> status <> "ROTH IRA" -> status <> "Trust" ->
         Est_Tax s = (gain * 0x1.3333333333333p-3)%float))
  /\ (forall s, In s (cli.by_status env tx) ->
     let status := st_TaxStatus (summary s) in
     let gain := st_Net_CapGain (summary s) in
     (status = "HSA" \/ status = "ROTH IRA" -> Est_Tax s = 0%float)
     /\ (status = "Trust" -> Est_Tax s = (gain * 0x1.999999999999ap-3)%float)
     /\ (status <> "HSA" -> status <> "ROTH IRA" -> status <> "Trust" ->
         Est_Tax s = (gain * 0x1.3333333333333p-3)%float)).
Proof.
  assert (T : forall R (ts : R -> string) (g : R -> float) (r : R),
             (ts r = "HSA" \/ ts r = "ROTH IRA" -> cli._est_tax ts g r = 0%float)
             /\ (ts r = "Trust" ->
                 cli._est_tax ts g r = (g r * 0x1.999999999999ap-3)%float)
             /\ (ts r <> "HSA" -> ts r <> "ROTH IRA" -> ts r <> "Trust" ->
                 cli._est_tax ts g r = (g r * 0x1.3333333333333p-3)%float)).
  { intros R ts g r. unfold cli._est_tax, cli.rate_trust, cli.rate_other. simpl.
    destruct (String.eqb_spec (ts r) "HSA") as [E1|N1];
      destruct (String.eqb_spec (ts r) "ROTH IRA") as [E2|N2];
      destruct (String.eqb_spec (ts r) "Trust") as [E3|N3]; simpl;
      repeat split; intros; try reflexivity; try congruence; try tauto;
      try (destruct H; congruence). }
  split; intros s Hs; unfold cli.acc_sum, cli.by_status, cli.add_est_tax in Hs;
    apply in_map_iff in Hs; destruct Hs as (r & <- & _); simpl; apply T.
Qed.

(** C5, as stated, fails for the status it writes "Roth IRA": [_est_tax]
    exempts the upper-case "ROTH IRA" only, and the summary row of a sale
    under "Roth IRA" with a gain of 1000 carries a tax of 150, not 0. *)
Lemma C5_roth_ira_counterexample :
  exists s,
    In s (cli.acc_sum Examples.env (cli.add_buy_sell [Examples.roth_sell]))
    /\ acc_TaxStatus (summary s) = "Roth IRA"
    /\ acc_Net_CapGain (summary s) = 1000%float
    /\ Est_Tax s = 150%float
    /\ Est_Tax s <> 0%float.
Proof.
  eexists. split; [left; reflexivity|].
  split; [reflexivity|]. split; [reflexivity|]. split; [reflexivity|].
  intros E. apply (f_equal Prim2SF) in E. vm_compute in E. discriminate.
Qed.

(** C6: whatever residual mapping the engine returns, [main] prints one
    warning line per entry, in the mapping's order, carrying the account
    and the signed dollar amount; the CSV and the holdings file are
    written before the warnings; after them, when there is a transaction,
    the PDF is rendered from the table and its two summaries, by calls
    that [render_pdf] returns without raising and that end with the
    writing of the PDF file; and the run ends without an exception. *)
Theorem C6_residuals_warned (env : cli.Collaborators) (args : cli.Args) (tag : Z)
    (h : list Holding) (W : Weights) (tx : list TxRow) (after : list Holding)
    (residuals : Residuals) :
  cli.vol_pct_tag (cli.vol args) = Py.Ok tag ->
  cli.load_holdings env (cli.holdings args) = Py.Ok h ->
  cli.load_targets env tag = Py.Ok W ->
  cli.build_trades_and_afterholdings env h W (cli.cash_tol args) = (tx, after, residuals) ->
  exists pdf_events,
    cli.main env args =
    (preamble args tag
       ++ [cli.WriteCsv cli.csv_header tx (cli.csv_out env);
           cli.Print ("CSV written: " ++ cli.csv_out env);
           cli.WriteHoldings after (cli.hold_after_out env);
           cli.Print ("Holdings-after written: " ++ cli.hold_after_out env)]
       ++ map (fun entry => cli.Print (cli.warn_line (fst entry) (snd entry))) residuals
       ++ pdf_events,
     Py.Ok tt)
    /\ (if Frame.empty tx
        then pdf_events = [cli.Print "No trades; PDF skipped."]
        else exists ops calls,
            report_pdf.render_pdf (cli.ensure_unicode_font env) tx
              (cli.acc_sum env (cli.add_buy_sell tx))
              (cli.by_status env (cli.add_buy_sell tx)) tag (cli.pdf_out env tag)
            = Py.Ok ops
            /\ ops = calls ++ [report_pdf.output (cli.pdf_out env tag)]
            /\ pdf_events =
               [cli.RenderPdf ops; cli.Print ("PDF written: " ++ cli.pdf_out env tag)])
    /\ (forall acct amt,
           cli.warn_line acct amt =
           ("[WARN] Residual cash flow in '" ++ acct ++ "': "
            ++ (if Py.Qltb amt 0 then "-" else "") ++ "$"
            ++ Py.format_comma_f 2 (Qabs amt))%string).
Proof.
  intros Htag Hh HW Hb.
  exists (fst (pdf_step env tag tx)).
  destruct (pdf_step_ok env tag tx) as [Hok Hev].
  split; [|split].
  - rewrite (main_run env args tag h W tx after residuals Htag Hh HW Hb), Hok.
    reflexivity.
  - destruct (Frame.empty tx) eqn:E; [exact Hev|].
    destruct (pdf_step_rendered env tag tx E) as (ops & calls & Hr & Hc & Hs).
    exists ops, calls. rewrite Hs. auto.
  - reflexivity.
Qed.

(** A run whose engine reports a residual of -$70 for account IRA1: the
    warning is printed and the PDF is written. *)
Lemma C6_residuals_warned_witness :
  exists ops calls,
    report_pdf.render_pdf "DejaVuSans.ttf"
      [mkTx "IRA1" "ROTH IRA" "BND" "Bonds" "BUY" 80 (807 # 8) 0 8000 0;
       Examples.sell_vti]
      (cli.acc_sum Examples.env_with_residual
         (cli.add_buy_sell
            [mkTx "IRA1" "ROTH IRA" "BND" "Bonds" "BUY" 80 (807 # 8) 0 8000 0;
             Examples.sell_vti]))
      (cli.by_status Examples.env_with_residual
         (cli.add_buy_sell
            [mkTx "IRA1" "ROTH IRA" "BND" "Bonds" "BUY" 80 (807 # 8) 0 8000 0;
             Examples.sell_vti]))
      8 "output/PortfolioAnalytics2_8vol_2024-01-31.pdf"
    = Py.Ok ops
    /\ ops = calls ++ [report_pdf.output "output/PortfolioAnalytics2_8vol_2024-01-31.pdf"]
    /\
    cli.main Examples.env_with_residual Examples.args =
    (preamble Examples.args 8
       ++ [cli.WriteCsv cli.csv_header
             [mkTx "IRA1" "ROTH IRA" "BND" "Bonds" "BUY" 80 (807 # 8) 0 8000 0;
              Examples.sell_vti]
             "output/PortfolioAnalytics2_Trades_2024-01-31.csv";
           cli.Print "CSV written: output/PortfolioAnalytics2_Trades_2024-01-31.csv";
           cli.WriteHoldings
             [mkHolding "IRA1" "ROTH IRA" "VTI" "US Equity" 60 200 150;
              mkHolding "IRA1" "ROTH IRA" "BND" "Bonds" 80 (807 # 8) (807 # 8)]
             "output/holdings_aftertrades_2024-01-31.csv";
           cli.Print "Holdings-after written: output/holdings_aftertrades_2024-01-31.csv"]
       ++ [cli.Print "[WARN] Residual cash flow in 'IRA1': -$70.00"]
       ++ [cli.RenderPdf ops;
           cli.Print "PDF written: output/PortfolioAnalytics2_8vol_2024-01-31.pdf"],
     Py.Ok tt).
Proof.
  destruct (C6_residuals_warned Examples.env_with_residual Examples.args 8
              Examples.holdings Examples.weights
              [mkTx "IRA1" "ROTH IRA" "BND" "Bonds" "BUY" 80 (807 # 8) 0 8000 0;
               Examples.sell_vti]
              [mkHolding "IRA1" "ROTH IRA" "VTI" "US Equity" 60 200 150;
               mkHolding "IRA1" "ROTH IRA" "BND" "Bonds" 80 (807 # 8) (807 # 8)]
              [("IRA1", -70)]
              ltac:(vm_compute; reflexivity) eq_refl eq_refl eq_refl)
    as (pdf_events & Hmain & Hpdf & _).
  cbn [Frame.empty] in Hpdf. destruct Hpdf as (ops & calls & Hr & Hc & Hp).
  exists ops, calls. split; [exact Hr|]. split; [exact Hc|].
  subst pdf_events. exact Hmain.
Defined.

(** C7: when the engine returns no transaction, [main] still writes the
    CSV (with no row) and the holdings-after file, prints the warnings,
    skips the PDF and ends without an exception. *)
Theorem C7_empty_tx (env : cli.Collaborators) (args : cli.Args) (tag : Z)
    (h : list Holding) (W : Weights) (after : list Holding) (residuals : Residuals) :
  cli.vol_pct_tag (cli.vol args) = Py.Ok tag ->
  cli.load_holdings env (cli.holdings args) = Py.Ok h ->
  cli.load_targets env tag = Py.Ok W ->
  cli.build_trades_and_afterholdings env h W (cli.cash_tol args) = ([], after, residuals) ->
  cli.main env args =
  (preamble args tag
     ++ [cli.WriteCsv cli.csv_header [] (cli.csv_out env);
         cli.Print ("CSV written: " ++ cli.csv_out env);
         cli.WriteHoldings after (cli.hold_after_out env);
         cli.Print ("Holdings-after written: " ++ cli.hold_after_out env)]
     ++ warnings residuals
     ++ [cli.Print "No trades; PDF skipped."],
   Py.Ok tt)
  /\ (forall ops, ~ In (cli.RenderPdf ops) (fst (cli.main env args))).
Proof.
  intros Htag Hh HW Hb.
  pose proof (main_run env args tag h W [] after residuals Htag Hh HW Hb) as Hmain.
  split; [exact Hmain|].
  intros ops. rewrite Hmain. cbn [fst]. intros H.
  apply in_app_or in H. destruct H as [H|H].
  { simpl in H. repeat destruct H as [H|H]; try discriminate; auto. }
  apply in_app_or in H. destruct H as [H|H].
  { simpl in H. repeat destruct H as [H|H]; try discriminate; auto. }
  apply in_app_or in H. destruct H as [H|H].
  { unfold warnings in H. apply in_map_iff in H. destruct H as (p & E & _). discriminate. }
  simpl in H. destruct H as [H|[]]. discriminate.
Qed.

(** A run on a portfolio that is on target: the specified engine emits
    no transaction. *)
Lemma C7_empty_tx_witness :
  cli.main Examples.env_on_target Examples.args =
  ([cli.Print "Target volatility: 8%";
    cli.LoadHoldings "data/holdings.csv";
    cli.LoadTargets 8;
    cli.WriteCsv cli.csv_header [] "output/PortfolioAnalytics2_Trades_2024-01-31.csv";
    cli.Print "CSV written: output/PortfolioAnalytics2_Trades_2024-01-31.csv";
    cli.WriteHoldings Examples.holdings "output/holdings_aftertrades_2024-01-31.csv";
    cli.Print "Holdings-after written: output/holdings_aftertrades_2024-01-31.csv";
    cli.Print "No trades; PDF skipped."],
   Py.Ok tt).
Proof.
  exact (proj1 (C7_empty_tx Examples.env_on_target Examples.args 8
                  Examples.holdings Examples.weights_on_target Examples.holdings []
                  ltac:(vm_compute; reflexivity) eq_refl eq_refl
                  ltac:(vm_compute; reflexivity))).
Defined.

(** C8: the tag given to the target-weights loader is int(round(vol*100)),
    whenever the loader is reached, and it is reached as soon as the
    rounding and the holdings loader succeed; the default 0.08 gives 8. *)
Theorem C8_band_tag (env : cli.Collaborators) (args : cli.Args) :
  (forall tag, In (cli.LoadTargets tag) (fst (cli.main env args)) ->
     exists n, Py.round (cli.vol args * 100)%float = Py.Ok n /\ tag = Py.int n)
  /\ (forall n h, Py.round (cli.vol args * 100)%float = Py.Ok n ->
        cli.load_holdings env (cli.holdings args) = Py.Ok h ->
        In (cli.LoadTargets (Py.int n)) (fst (cli.main env args)))
  /\ (forall tol path,
        cli.vol (cli.parse_args env None tol path) = 0x1.47ae147ae147bp-4%float
        /\ cli.vol_pct_tag (cli.vol (cli.parse_args env None tol path)) = Py.Ok 8%Z).
Proof.
  split; [|split].
  - intros tag. unfold cli.main, cli.vol_pct_tag.
    destruct (Py.round (cli.vol args * 100)%float) as [n|e]; simpl; [|tauto].
    destruct (cli.load_holdings env (cli.holdings args)) as [h|e]; simpl.
    + destruct (cli.load_targets env (Py.int n)) as [W|e]; simpl.
      * destruct (cli.build_trades_and_afterholdings env h W (cli.cash_tol args))
          as [[tx after] residuals].
        destruct (cli.report env (Py.int n) tx after residuals) as [t r] eqn:E. simpl.
        intros [H|[H|[H|H]]]; try discriminate.
        -- injection H as <-. eauto.
        -- exfalso. apply (report_no_load env (Py.int n) tag tx after residuals).
           now rewrite E.
      * intros [H|[H|[H|[]]]]; try discriminate. injection H as <-. eauto.
    + intros [H|[H|[]]]; discriminate.
  - intros n h Hn Hh. unfold cli.main, cli.vol_pct_tag. rewrite Hn. simpl.
    rewrite Hh. simpl.
    destruct (cli.load_targets env (Py.int n)) as [W|e]; simpl.
    + destruct (cli.build_trades_and_afterholdings env h W (cli.cash_tol args))
        as [[tx after] residuals].
      destruct (cli.report env (Py.int n) tx after residuals) as [t r]. simpl. auto.
    + auto.
  - intros tol path. split; [reflexivity|]. vm_compute. reflexivity.
Qed.

(** C9: in the table [main] builds for the report, a BUY or SELL row has
    Buy_$ - Sell_$ = Delta_Dollars; Buy_$ is Delta_Dollars on a BUY row and
    0 otherwise, Sell_$ is -Delta_Dollars on a SELL row and 0 otherwise, so
    one of the two is 0. *)
Theorem C9_buy_sell_columns (tx : list TxRow) (r : TxRowBS) :
  In r (cli.add_buy_sell tx) ->
  Action (base r) = "BUY" \/ Action (base r) = "SELL" ->
  Buy_ r - Sell_ r == Delta_Dollars (base r)
  /\ Buy_ r = (if Action (base r) =? "BUY" then Delta_Dollars (base r) else 0)
  /\ Sell_ r = (if Action (base r) =? "SELL" then - Delta_Dollars (base r) else 0)
  /\ (Buy_ r = 0 \/ Sell_ r = 0).
Proof.
  unfold cli.add_buy_sell. rewrite in_map_iff. intros (t & <- & _). simpl.
  unfold cli.where_. intros [E|E]; rewrite E; simpl; repeat split; auto; ring.
Qed.

(** The SELL row of the worked example: Buy_$ = 0, Sell_$ = 8000. *)
Lemma C9_buy_sell_columns_witness :
  Buy_ (mkTxBS Examples.sell_vti 0 (- (-80000 # 10)))
  - Sell_ (mkTxBS Examples.sell_vti 0 (- (-80000 # 10)))
  == -8000
  /\ Buy_ (mkTxBS Examples.sell_vti 0 (- (-80000 # 10))) = 0.
Proof.
  destruct (C9_buy_sell_columns [Examples.buy_bnd; Examples.sell_vti]
              (mkTxBS Examples.sell_vti 0 (- (-80000 # 10)))
              ltac:(right; left; reflexivity)
              (or_intror eq_refl)) as (H1 & H2 & _).
  split; [rewrite H1; reflexivity | exact H2].
Defined.

(** C10: the per-account summary built from the transaction table has a
    row for every (Account, TaxStatus) pair of the table, so the lookup
    [.iloc[0]] of every PDF section finds its row and [render_pdf] raises
    no [IndexError]. *)
Theorem C10_summary_lookup (env : cli.Collaborators) (tx : list TxRow) :
  (forall r, In r tx ->
     exists s, In s (cli.acc_sum env (cli.add_buy_sell tx))
               /\ acc_Account (summary s) = Account r
               /\ acc_TaxStatus (summary s) = TaxStatus r)
  /\ (forall g, In g (report_pdf.sections tx) ->
        exists s, report_pdf.lookup_summary (cli.acc_sum env (cli.add_buy_sell tx))
                    (nth 0 (fst g) "") (nth 1 (fst g) "") = Some s)
  /\ (forall font by_status tag outfile,
        exists ops,
          report_pdf.render_pdf font tx (cli.acc_sum env (cli.add_buy_sell tx))
            by_status tag outfile = Py.Ok ops).
Proof.
  split; [|split].
  - intros r Hr. now apply acc_sum_has_row.
  - intros g Hg. destruct (section_key tx g Hg) as (r & Hr & Hk).
    destruct g as [k rows]. simpl in Hk. subst k. simpl.
    now apply lookup_summary_some.
  - intros. apply render_pdf_ok.
Qed.

(** ** Rounding the volatility *)

Lemma round_scaled_near (m e : Z) :
  Qabs (inject_Z (Py.round_scaled m e) - inject_Z m * 2 ^ e) <= 1 # 2.
Proof.
  unfold Py.round_scaled. destruct (0 <=? e)%Z eqn:E.
  - apply Z.leb_le in E.
    assert (R : inject_Z (m * 2 ^ e) - inject_Z m * 2 ^ e == 0).
    { rewrite inject_Z_mult, (Zpower_Qpower 2 e E). change (inject_Z 2) with 2.
      generalize (2 ^ e). intros p. ring. }
    rewrite R. discriminate.
  - apply Z.leb_gt in E.
    set (d := (2 ^ (- e))%Z).
    assert (Dpos : (0 < d)%Z) by (apply Z.pow_pos_nonneg; lia).
    assert (DQ : 0 < inject_Z d) by (change 0 with (inject_Z 0); now rewrite <- Zlt_Qlt).
    assert (V : 2 ^ e == / inject_Z d).
    { unfold d. rewrite (Zpower_Qpower 2 (- e)) by lia.
      rewrite <- Qpower_opp, Z.opp_involutive. reflexivity. }
    pose proof (Z.div_mod m d ltac:(lia)) as DM.
    pose proof (Z.mod_pos_bound m d Dpos) as MB.
    set (q := (m / d)%Z) in *. set (r := (m mod d)%Z) in *.
    assert (Near : forall t : Z,
               (- d <= 2 * (t * d - m) <= d)%Z ->
               Qabs (inject_Z t - inject_Z m * 2 ^ e) <= 1 # 2).
    { intros t [L U]. rewrite V. apply Qabs_Qle_condition.
      assert (X : inject_Z t - inject_Z m * / inject_Z d
                  == (inject_Z t * inject_Z d - inject_Z m) / inject_Z d).
      { field. intros Z0. rewrite Z0 in DQ. discriminate. }
      rewrite X.
      rewrite Zle_Qle in L, U.
      rewrite inject_Z_mult, inject_Z_opp in L. rewrite inject_Z_mult in U.
      unfold Zminus in L, U. rewrite inject_Z_plus, inject_Z_opp, inject_Z_mult in L, U.
      change (inject_Z 2) with 2 in L, U.
      set (P := inject_Z t * inject_Z d) in *.
      split.
      - apply Qle_shift_div_l; [assumption|]. lra.
      - apply Qle_shift_div_r; [assumption|]. lra. }
    assert (Q0 : (q * d - m = - r)%Z) by lia.
    assert (Q1 : ((q + 1) * d - m = d - r)%Z) by lia.
    destruct (2 * r ?= d)%Z eqn:C.
    + apply Z.compare_eq in C.
      destruct (Z.even q); apply Near; [rewrite Q0|rewrite Q1]; lia.
    + assert (C' : (2 * r < d)%Z) by exact C.
      apply Near. rewrite Q0. lia.
    + assert (C' : (d < 2 * r)%Z) by (apply Z.compare_gt_iff; exact C).
      apply Near. rewrite Q1. lia.
Qed.

Lemma Qabs_opp_eq (x : Q) : Qabs (- x) = Qabs x.
Proof. destruct x as [n d]. unfold Qabs, Qopp. simpl. now rewrite Z.abs_opp. Qed.

Lemma Qltb_neg (x : Q) : x < 0 -> Py.Qltb x 0 = true /\ Py.Qltb (- x) 0 = false.
Proof.
  intros H. unfold Py.Qltb. split.
  - apply negb_true_iff. destruct (Qle_bool 0 x) eqn:E; [|reflexivity].
    apply Qle_bool_iff in E. lra.
  - apply negb_false_iff. apply Qle_bool_iff. lra.
Qed.

(** ** Rows with equal keys *)

Lemma filter_flat_map {A B} (p : B -> bool) (f : A -> list B) (l : list A) :
  filter p (flat_map f l) = flat_map (fun x => filter p (f x)) l.
Proof.
  induction l as [|x l IH]; simpl; [reflexivity|]. now rewrite filter_app, IH.
Qed.

Lemma flat_map_nil {A B} (f : A -> list B) (l : list A) :
  (forall x, In x l -> f x = []) -> flat_map f l = [].
Proof.
  induction l as [|x l IH]; simpl; intros H; [reflexivity|].
  rewrite (H x (or_introl eq_refl)). apply IH. intros; apply H; auto.
Qed.

Lemma flat_map_single {B} (f : KeyOrder.key -> list B) (k : KeyOrder.key)
    (ks : list KeyOrder.key) :
  NoDup ks -> In k ks -> (forall k', In k' ks -> k' <> k -> f k' = []) ->
  flat_map f ks = f k.
Proof.
  induction 1 as [|x ks Hn ND IH]; simpl; intros Hk H0; [destruct Hk|].
  destruct Hk as [->|Hk].
  - rewrite flat_map_nil; [apply app_nil_r|].
    intros y Hy. apply H0; [auto|]. intros ->. contradiction.
  - rewrite (H0 x); [|auto|intros ->; contradiction]. simpl.
    apply IH; [assumption|]. intros; apply H0; auto.
Qed.

Lemma section_key_of_full_key (r r0 : TxRow) :
  Frame.key_of by_section_then_action r = Frame.key_of by_section_then_action r0 ->
  Frame.key_of by_account_status r = Frame.key_of by_account_status r0
  /\ Frame.key_of by_account_action r = Frame.key_of by_account_action r0.
Proof. simpl. intros E. injection E as -> -> -> -> ->. auto. Qed.

(** * Further properties of the report *)

(** X4: [render_pdf] returns the PDF exactly when [acc_sum] has a row for
    the account and tax status of every transaction; when some
    transaction has none, the lookup [.iloc[0]] of its section raises
    [IndexError] and nothing is written. *)
Theorem X4_render_pdf_index_error (font : string) (tx : list TxRow)
    (acc_sum : list (WithTax AccAgg)) (by_status : list (WithTax StatusAgg))
    (tag : Z) (outfile : string) :
  (forallb (has_summary acc_sum) tx = true ->
   exists ops, report_pdf.render_pdf font tx acc_sum by_status tag outfile = Py.Ok ops)
  /\ (forallb (has_summary acc_sum) tx = false ->
      report_pdf.render_pdf font tx acc_sum by_status tag outfile
      = Py.Raise Py.IndexError).
Proof.
  unfold report_pdf.render_pdf. split.
  - intros H. rewrite forallb_forall in H.
    destruct (account_sections_ok acc_sum (report_pdf.sections tx)) as (body & ->);
      [|eauto].
    intros g Hg. destruct (section_key tx g Hg) as (r & Hr & Hk).
    destruct g as [k rows]. simpl in Hk. subst k. simpl.
    apply lookup_summary_found. apply (H r Hr).
  - intros H. apply forallb_false_exists in H. destruct H as (r & Hr & Hn).
    rewrite account_sections_raise; [reflexivity|].
    assert (Hs : In r (Frame.sort_values by_account_action tx))
      by now apply sort_values_In.
    destruct (groupby_key_In by_account_status _ r Hs) as (g & Hg & Hk & _).
    exists g. split; [exact Hg|].
    destruct g as [k rows]. simpl in Hk. subst k. simpl.
    now apply lookup_summary_none.
Qed.

(** A table of two rows rendered with an empty summary. *)
Lemma X4_render_pdf_index_error_witness :
  report_pdf.render_pdf "DejaVuSans.ttf" [Examples.buy_bnd; Examples.sell_vti] [] [] 8
    "out.pdf"
  = Py.Raise Py.IndexError.
Proof.
  apply (proj2 (X4_render_pdf_index_error "DejaVuSans.ttf"
                  [Examples.buy_bnd; Examples.sell_vti] [] [] 8 "out.pdf")).
  reflexivity.
Defined.

(** X5: in a run of [main], the filter of every PDF section keeps exactly
    one row of the per-account summary, the one [.iloc[0]] takes; the
    three totals of that row are the ["sum"] aggregation of Buy_$, Sell_$
    and CapGain_Dollars over the rows of the table that carry the
    section's account and tax status, in the order of the table; and the
    rows rendered in the section are these same rows, in the order of the
    sort. *)
Theorem X5_section_totals (env : cli.Collaborators) (tx : list TxRow)
    (g : KeyOrder.key * list TxRow) :
  In g (report_pdf.sections tx) ->
  let of_section :=
    filter (fun r => (Account r =? nth 0 (fst g) "") && (TaxStatus r =? nth 1 (fst g) ""))
           tx in
  Permutation (snd g) of_section
  /\ exists s,
      filter (summary_matches (nth 0 (fst g) "") (nth 1 (fst g) ""))
             (cli.acc_sum env (cli.add_buy_sell tx)) = [s]
      /\ report_pdf.lookup_summary (cli.acc_sum env (cli.add_buy_sell tx))
           (nth 0 (fst g) "") (nth 1 (fst g) "") = Some s
      /\ acc_Total_Buys (summary s)
         = cli.agg_sum env (map Buy_ (cli.add_buy_sell of_section))
      /\ acc_Total_Sells (summary s)
         = cli.agg_sum env (map Sell_ (cli.add_buy_sell of_section))
      /\ acc_Net_CapGain (summary s) = cli.agg_sum env (map CapGain_Dollars of_section).
Proof.
  intros Hg. destruct (section_rows_perm tx g Hg) as (Hk & P).
  assert (F : filter (fun r => KeyOrder.eqb (Frame.key_of by_account_status r) (fst g)) tx
              = filter (fun r => (Account r =? nth 0 (fst g) "")
                                 && (TaxStatus r =? nth 1 (fst g) "")) tx).
  { apply filter_ext. intros r.
    rewrite (account_status_key_shape tx (fst g) Hk) at 1. apply key2_eqb. }
  cbv zeta. rewrite <- F. split; [exact P|].
  pose proof (summary_filter_singleton env tx (fst g) Hk) as S.
  exists (account_summary_row env tx (fst g)). split; [exact S|]. split.
  - unfold report_pdf.lookup_summary, Frame.iloc0.
    fold (summary_matches (nth 0 (fst g) "") (nth 1 (fst g) "")). now rewrite S.
  - unfold account_summary_row. cbn [summary acc_Total_Buys acc_Total_Sells acc_Net_CapGain].
    rewrite add_buy_sell_filter. repeat split.
    unfold cli.add_buy_sell. now rewrite map_map.
Qed.

(** The section of the worked example, with the sample ["sum"]: buys of
    $8000, sells of $8000 and a net gain of $2000. *)
Lemma X5_section_totals_witness :
  Permutation [Examples.buy_bnd; Examples.sell_vti] [Examples.sell_vti; Examples.buy_bnd]
  /\ exists s,
      report_pdf.lookup_summary
        (cli.acc_sum Examples.env (cli.add_buy_sell [Examples.sell_vti; Examples.buy_bnd]))
        "IRA1" "ROTH IRA" = Some s
      /\ acc_Total_Buys (summary s) = 8000%float
      /\ acc_Total_Sells (summary s) = 8000%float
      /\ acc_Net_CapGain (summary s) = 2000%float.
Proof.
  destruct (X5_section_totals Examples.env [Examples.sell_vti; Examples.buy_bnd]
              (["IRA1"; "ROTH IRA"], [Examples.buy_bnd; Examples.sell_vti])
              ltac:(vm_compute; left; reflexivity))
    as (P & s & _ & L & B & S & N).
  split; [exact P|].
  exists s. split; [exact L|]. split; [|split].
  - rewrite B. vm_compute. reflexivity.
  - rewrite S. vm_compute. reflexivity.
  - rewrite N. vm_compute. reflexivity.
Defined.

(** The tax on a net gain of 14.5 at the rate 0.15 is the binary64
    product 2.1749999999999998, which the PDF prints as $2.17. *)
Example est_tax_binary64 :
  report_pdf._fmt_currency_float
    (cli._est_tax (fun _ : unit => "Taxable") (fun _ => 14.5%float) tt)
  = "$2.17".
Proof. vm_compute. reflexivity. Qed.

(** X6: the PDF has one section per row of the per-account summary that
    [main] builds, in the order of the summary's rows. *)
Theorem X6_sections_follow_summary (env : cli.Collaborators) (tx : list TxRow) :
  map fst (report_pdf.sections tx)
  = map (fun s => [acc_Account (summary s); acc_TaxStatus (summary s)])
        (cli.acc_sum env (cli.add_buy_sell tx)).
Proof.
  rewrite sections_keys, acc_sum_rows, map_map.
  rewrite <- (map_id (Frame.group_keys by_account_status tx)) at 1.
  apply map_ext_in. intros k Hk. simpl. now apply account_status_key_shape with (tx := tx).
Qed.

(** X12: transactions that agree on Account, TaxStatus, Action, Sleeve
    and Identifier are rendered into the PDF in the order in which the
    table lists them: sorting and grouping never swap two such rows. *)
Theorem X12_ties_keep_table_order (tx : list TxRow) (k : KeyOrder.key) :
  filter (fun r => KeyOrder.eqb (Frame.key_of by_section_then_action r) k)
         (report_pdf.rendered_rows tx)
  = filter (fun r => KeyOrder.eqb (Frame.key_of by_section_then_action r) k) tx.
Proof.
  set (P5 := fun r => KeyOrder.eqb (Frame.key_of by_section_then_action r) k).
  destruct (existsb P5 tx) eqn:Ex.
  - apply existsb_exists in Ex. destruct Ex as (r0 & H0 & E0).
    unfold P5 in E0. apply key_eqb_eq in E0.
    assert (K : forall r, P5 r = true ->
                          Frame.key_of by_account_status r = Frame.key_of by_account_status r0
                          /\ Frame.key_of by_account_action r
                             = Frame.key_of by_account_action r0).
    { intros r Hr. unfold P5 in Hr. apply key_eqb_eq in Hr.
      apply section_key_of_full_key. congruence. }
    rewrite rendered_rows_flat, filter_flat_map.
    rewrite (flat_map_single _ (Frame.key_of by_account_status r0)).
    + rewrite filter_filter_implied
        by (intros r Hr; apply key_eqb_eq; now apply K).
      rewrite <- (filter_filter_implied P5
                    (fun r => KeyOrder.eqb (Frame.key_of by_account_action r)
                                (Frame.key_of by_account_action r0))
                    (Frame.sort_values by_account_action tx))
        by (intros r Hr; apply key_eqb_eq; now apply K).
      rewrite sort_values_stable.
      apply filter_filter_implied. intros r Hr. apply key_eqb_eq. now apply K.
    + apply key_lt_NoDup, group_keys_sorted.
    + apply group_keys_In. exists r0. split; [now apply sort_values_In|reflexivity].
    + intros k' _ Ne. apply filter_filter_excluded. intros r Hr.
      destruct (KeyOrder.eqb (Frame.key_of by_account_status r) k') eqn:E; [|reflexivity].
      apply key_eqb_eq in E. exfalso. apply Ne. rewrite <- E. now apply K.
  - assert (N : forall r, In r tx -> P5 r = false).
    { intros r Hr. destruct (P5 r) eqn:E; [|reflexivity].
      assert (X : existsb P5 tx = true) by (apply existsb_exists; eauto). congruence. }
    rewrite !filter_none; auto.
    intros r Hr. apply N. now apply (Permutation_in _ (rendered_rows_perm tx)).
Qed.

(** X13: each summary has exactly one row per key of the table, in
    ascending order of the key: the per-account summary one row per
    (Account, TaxStatus) pair, the per-status summary one row per
    TaxStatus. *)
Theorem X13_summary_keys (env : cli.Collaborators) (tx : list TxRowBS) :
  let acc_keys :=
    map (fun s => [acc_Account (summary s); acc_TaxStatus (summary s)])
        (cli.acc_sum env tx) in
  let status_keys := map (fun s => [st_TaxStatus (summary s)]) (cli.by_status env tx) in
  (StronglySorted KeyOrder.lt acc_keys /\ NoDup acc_keys
   /\ forall a t, In [a; t] acc_keys
                  <-> exists r, In r tx /\ Account (base r) = a /\ TaxStatus (base r) = t)
  /\ (StronglySorted KeyOrder.lt status_keys /\ NoDup status_keys
      /\ forall t, In [t] status_keys <-> exists r, In r tx /\ TaxStatus (base r) = t).
Proof.
  assert (A : map (fun s => [acc_Account (summary s); acc_TaxStatus (summary s)])
                  (cli.acc_sum env tx)
              = Frame.group_keys by_account_status_bs tx).
  { unfold cli.acc_sum, cli.add_est_tax, cli.acc_agg, Frame.groupby.
    fold by_account_status_bs. rewrite !map_map. simpl.
    rewrite <- (map_id (Frame.group_keys by_account_status_bs tx)) at 2.
    apply map_ext_in. intros k Hk. apply group_keys_In in Hk.
    destruct Hk as (r & _ & <-). reflexivity. }
  assert (B : map (fun s => [st_TaxStatus (summary s)]) (cli.by_status env tx)
              = Frame.group_keys by_status_bs tx).
  { unfold cli.by_status, cli.add_est_tax, cli.status_agg, Frame.groupby.
    fold by_status_bs. rewrite !map_map. simpl.
    rewrite <- (map_id (Frame.group_keys by_status_bs tx)) at 2.
    apply map_ext_in. intros k Hk. apply group_keys_In in Hk.
    destruct Hk as (r & _ & <-). reflexivity. }
  cbv zeta. rewrite A, B. split; (split; [apply group_keys_sorted|]);
    (split; [apply key_lt_NoDup, group_keys_sorted|]).
  - intros a t. rewrite group_keys_In. split.
    + intros (r & Hr & E). injection E as <- <-. eauto.
    + intros (r & Hr & <- & <-). eauto.
  - intros t. rewrite group_keys_In. split.
    + intros (r & Hr & E). injection E as <-. eauto.
    + intros (r & Hr & <-). eauto.
Qed.

(** * Further properties of [main] *)

(** X1: a failure of the rounding of [--vol] or of a loader ends [main]
    with that very exception, before the next collaborator is called; so
    [main] writes no file unless the rounding and both loaders succeeded. *)
Theorem X1_main_failures (env : cli.Collaborators) (args : cli.Args) :
  (forall e, cli.vol_pct_tag (cli.vol args) = Py.Raise e ->
             cli.main env args = ([], Py.Raise e))
  /\ (forall tag e,
         cli.vol_pct_tag (cli.vol args) = Py.Ok tag ->
         cli.load_holdings env (cli.holdings args) = Py.Raise e ->
         cli.main env args
         = ([cli.Print ("Target volatility: " ++ Py.str tag ++ "%");
             cli.LoadHoldings (cli.holdings args)], Py.Raise e))
  /\ (forall tag h e,
         cli.vol_pct_tag (cli.vol args) = Py.Ok tag ->
         cli.load_holdings env (cli.holdings args) = Py.Ok h ->
         cli.load_targets env tag = Py.Raise e ->
         cli.main env args = (preamble args tag, Py.Raise e))
  /\ (forall ev,
         In ev (fst (cli.main env args)) -> writes ev = true ->
         exists tag h W,
           cli.vol_pct_tag (cli.vol args) = Py.Ok tag
           /\ cli.load_holdings env (cli.holdings args) = Py.Ok h
           /\ cli.load_targets env tag = Py.Ok W).
Proof.
  unfold cli.main, preamble.
  destruct (cli.vol_pct_tag (cli.vol args)) as [tag|e0]; simpl.
  2: { repeat split; try discriminate.
       - intros e H. now injection H as <-.
       - intros ev []. }
  destruct (cli.load_holdings env (cli.holdings args)) as [h|e1]; simpl.
  2: { repeat split; try discriminate.
       - intros t e Ht H. injection Ht as <-. now injection H as <-.
       - intros ev [<-|[<-|[]]]; discriminate. }
  destruct (cli.load_targets env tag) as [W|e2] eqn:HW; simpl.
  2: { repeat split; try discriminate.
       - intros t h' e Ht _ H. injection Ht as <-. rewrite HW in H. now injection H as <-.
       - intros ev [<-|[<-|[<-|[]]]]; discriminate. }
  repeat split; try discriminate.
  - intros t h' e Ht _ H. injection Ht as <-. rewrite HW in H. discriminate.
  - intros ev _ _. exists tag, h, W. auto.
Qed.

(** X2: the band tag exists exactly when [vol * 100], computed in binary64,
    is finite: a NaN makes [main] raise [ValueError] and an infinite
    product [OverflowError], in both cases before anything is printed,
    loaded or written; a zero product gives the tag 0. *)
Theorem X2_nonfinite_vol (env : cli.Collaborators) (args : cli.Args) :
  (Prim2SF (cli.vol args * 100)%float = S754_nan ->
   cli.main env args = ([], Py.Raise Py.ValueError))
  /\ (forall s, Prim2SF (cli.vol args * 100)%float = S754_infinity s ->
                cli.main env args = ([], Py.Raise Py.OverflowError))
  /\ (forall s, Prim2SF (cli.vol args * 100)%float = S754_zero s ->
                cli.vol_pct_tag (cli.vol args) = Py.Ok 0%Z)
  /\ (forall s m e, Prim2SF (cli.vol args * 100)%float = S754_finite s m e ->
                    exists tag, cli.vol_pct_tag (cli.vol args) = Py.Ok tag).
Proof.
  unfold cli.main, cli.vol_pct_tag, Py.round.
  repeat split; intros; rewrite H; simpl; eauto.
Qed.

(** A NaN volatility, and a finite one whose product with 100 overflows. *)
Lemma X2_nonfinite_vol_witness :
  cli.main Examples.env (cli.mkArgs nan 5 "data/holdings.csv")
  = ([], Py.Raise Py.ValueError)
  /\ cli.main Examples.env (cli.mkArgs 0x1p1020%float 5 "data/holdings.csv")
     = ([], Py.Raise Py.OverflowError).
Proof.
  split.
  - apply (proj1 (X2_nonfinite_vol Examples.env (cli.mkArgs nan 5 "data/holdings.csv"))).
    vm_compute. reflexivity.
  - apply (proj1 (proj2 (X2_nonfinite_vol Examples.env
                           (cli.mkArgs 0x1p1020%float 5 "data/holdings.csv")))
             false).
    vm_compute. reflexivity.
Defined.

(** X3: when [vol * 100], computed in binary64, is a finite number, the
    band tag is an integer nearest to it: the two differ by at most one
    half. *)
Theorem X3_tag_is_nearest (v : float) (s : bool) (m : positive) (e : Z) :
  Prim2SF (v * 100)%float = S754_finite s m e ->
  exists tag,
    cli.vol_pct_tag v = Py.Ok tag
    /\ Qabs (inject_Z tag - float_value s m e) <= 1 # 2.
Proof.
  intros H. unfold cli.vol_pct_tag, Py.round. rewrite H.
  eexists. split; [reflexivity|].
  unfold Py.int, float_value.
  pose proof (round_scaled_near (Zpos m) e) as N.
  destruct s.
  - rewrite inject_Z_opp.
    assert (R : - inject_Z (Py.round_scaled (Z.pos m) e)
                - - 1 * (inject_Z (Z.pos m) * 2 ^ e)
                == - (inject_Z (Py.round_scaled (Z.pos m) e)
                      - inject_Z (Z.pos m) * 2 ^ e)).
    { generalize (2 ^ e). intros p. ring. }
    rewrite R, Qabs_opp. exact N.
  - assert (R : inject_Z (Py.round_scaled (Z.pos m) e)
                - 1 * (inject_Z (Z.pos m) * 2 ^ e)
                == inject_Z (Py.round_scaled (Z.pos m) e)
                   - inject_Z (Z.pos m) * 2 ^ e).
    { generalize (2 ^ e). intros p. ring. }
    rewrite R. exact N.
Qed.

(** The volatility written 0.285: the product is 28.499999999999996
    (8022036836253695 x 2^-48), and the tag is 28, not 29. *)
Lemma X3_tag_is_nearest_witness :
  exists tag,
    cli.vol_pct_tag 0x1.23d70a3d70a3dp-2%float = Py.Ok tag
    /\ Qabs (inject_Z tag - float_value false 8022036836253695 (-48)) <= 1 # 2.
Proof.
  apply (X3_tag_is_nearest 0x1.23d70a3d70a3dp-2%float false 8022036836253695 (-48)).
  vm_compute. reflexivity.
Defined.

(** X11: a negative amount is printed by [_fmt_currency] as the amount
    without its sign, in parentheses, and by [_fmt_number] as the amount
    without its sign after a minus. *)
Theorem X11_fmt_negative (x : Q) :
  x < 0 ->
  report_pdf._fmt_currency x = ("(" ++ report_pdf._fmt_currency (- x) ++ ")")%string
  /\ report_pdf._fmt_number x = ("-" ++ report_pdf._fmt_number (- x))%string.
Proof.
  intros H. destruct (Qltb_neg x H) as [N P].
  unfold report_pdf._fmt_currency, report_pdf._fmt_number, Py.format_comma_f.
  rewrite N, P, !Qabs_opp_eq.
  assert (A : Py.Qltb (Qabs x) 0 = false).
  { unfold Py.Qltb. apply negb_false_iff, Qle_bool_iff, Qabs_nonneg. }
  rewrite A. split; reflexivity.
Qed.

(** -1234.5 is printed ($1,234.50) as a currency and -1,234.5 as a number. *)
Lemma X11_fmt_negative_witness :
  report_pdf._fmt_currency (-12345 # 10) = "($1,234.50)"
  /\ report_pdf._fmt_number (-12345 # 10) = "-1,234.5".
Proof.
  destruct (X11_fmt_negative (-12345 # 10) ltac:(reflexivity)) as [C N].
  split; [rewrite C | rewrite N]; vm_compute; reflexivity.
Defined.
